(** * Kaiten client: request pipeline, configuration and base objects

  A shallow embedding of the parts of the Kaiten API client that carry its
  contract:

  - [config.py]: [KaitenConfig.get_base_url] and [KaitenCredentials];
  - [kaiten_client.py]: [KaitenClient._request] (sliding-window rate
    limiter, query-string construction, retry loop, response
    classification) and the facade methods [get_cards], [get_space_users]
    and [delete_card];
  - [models/base.py]: [KaitenObject] ([data], [get], [__getitem__],
    [__contains__], [__eq__], [__hash__]), with the overrides of [id] in
    [models/checklist.py] and [models/checklist_item.py] and of [data] in
    [models/property.py].

  Data.  Python [str] values are [string]s, read as sequences of code
  points below 256 (the text of a message is kept as the bytes of the
  source).  Clock readings and delays, Python floats in seconds, are
  rationals [Q]: [1.0] is [1], and the arithmetic is exact; the limiter's
  float arithmetic is exact on timestamps from 1.0 on, and rounds below
  (see [KaitenClient.from_one_second]).  A dictionary is
  a [gmap] where only lookups matter, an association list where the order
  of insertion is observable, and a location of a store where it is shared
  by reference.

  Control.  [_request] is a coroutine of a single-threaded event loop: it
  runs without interruption from one [await] that suspends it to the next.
  It is modelled as a step function between these suspension points, fed
  with what the environment supplies on resumption (a clock reading, the
  outcome of an exchange, the end of a sleep); concurrent calls are
  interleavings of such steps over the shared client. *)

From Stdlib Require Import ZArith QArith Lia Lqa List Bool Ascii String DecimalString.
From stdpp Require Import gmap strings.

Local Open Scope bool_scope.

(** ** Python string primitives *)

Module PyStr.

(** [c.isspace()] for code points below 256: tab, LF, VT, FF, CR, the four
    separators 0x1c-0x1f, space, NEL (0x85) and no-break space (0xa0). *)
Definition isspace (c : ascii) : bool :=
  let n := nat_of_ascii c in
  ((9 <=? n) && (n <=? 13)) || ((28 <=? n) && (n <=? 32))
  || (n =? 133) || (n =? 160).

(** [not s] *)
Definition falsy (s : string) : bool :=
match s with
| EmptyString => true
| String _ _ => false
end.

(** [s.lstrip(chars)], with the character set given as a predicate. *)
Fixpoint lstrip_with (p : ascii -> bool) (s : string) : string :=
  match s with
  | EmptyString => EmptyString
  | String c s' => if p c then lstrip_with p s' else s
  end.

(** [s.rstrip(chars)]: a character is dropped when it is in the set and
    everything after it has been dropped. *)
Fixpoint rstrip_with (p : ascii -> bool) (s : string) : string :=
  match s with
  | EmptyString => EmptyString
  | String c s' =>
      match rstrip_with p s' with
      | EmptyString => if p c then EmptyString else String c EmptyString
      | r => String c r
      end
  end.

(** [s.strip()] *)
Definition strip (s : string) : string := rstrip_with isspace (lstrip_with isspace s).

Definition is_slash (c : ascii) : bool := Ascii.eqb c "/"%char.

(** [s.rstrip("/")] *)
Definition rstrip_slash (s : string) : string := rstrip_with is_slash s.

(** [s.endswith(suf)]: some tail of [s] is [suf]. *)
Fixpoint endswith (s suf : string) : bool :=
  if String.eqb s suf then true
  else match s with
       | EmptyString => false
       | String _ s' => endswith s' suf
       end.

(** [c in s] for a single character. *)
Fixpoint contains (c : ascii) (s : string) : bool :=
  match s with
  | EmptyString => false
  | String d s' => Ascii.eqb c d || contains c s'
  end.

(** [pat in s] for a pattern. *)
Fixpoint occurs (pat s : string) : bool :=
  String.prefix pat s
  || match s with
     | EmptyString => false
     | String _ s' => occurs pat s'
     end.

(** [s.replace(old, new)] for a non-empty [old]: a left-to-right scan that
    replaces each occurrence found and resumes after it.  [skip] counts the
    characters of a matched occurrence still to be passed over. *)
Fixpoint replace_from (old new : string) (skip : nat) (s : string) : string :=
  match s with
  | EmptyString => EmptyString
  | String c s' =>
      match skip with
      | S k => replace_from old new k s'
      | O =>
          if String.prefix old s
          then new +:+ replace_from old new (String.length old - 1) s'
          else String c (replace_from old new 0 s')
      end
  end.

Definition replace (old new s : string) : string := replace_from old new 0 s.

(** [s[len(pat):]] when [s] starts with [pat], else [s]. *)
Fixpoint drop (n : nat) (s : string) : string :=
  match n, s with
  | S k, String _ s' => drop k s'
  | _, _ => s
  end.

Definition strip_prefix (pat s : string) : string :=
  if String.prefix pat s then drop (String.length pat) s else s.

(** [str(n)] for an [int]. *)
Definition str_int (n : Z) : string := NilEmpty.string_of_int (Z.to_int n).

End PyStr.

(** ** Exceptions ([exceptions.py] and the builtins the code raises) *)

Inductive exn_class : Type :=
| ValueError
| RuntimeError
| AttributeError
| TypeError
| KeyError
| KaitenApiError
| KaitenNotFoundError
| KaitenValidationError
| KaitenAuthenticationError
| KaitenPermissionError
| KaitenRateLimitError
| KaitenServerError
| KaitenConnectionError
| KaitenTimeoutError
| ForeignError.  (* an exception of a library, passed on as it is *)

Record exn : Type := mk_exn {
exn_type : exn_class;
message : string;
status_code : option Z
}.

(** The constructors of [exceptions.py] that [kaiten_client.py] imports. *)
Definition mkKaitenApiError (msg : string) : exn := mk_exn KaitenApiError msg None.
Definition mkKaitenNotFoundError (msg : string) : exn := mk_exn KaitenNotFoundError msg (Some 404%Z).
Definition mkKaitenValidationError (msg : string) : exn := mk_exn KaitenValidationError msg (Some 422%Z).
Definition mkValueError (msg : string) : exn := mk_exn ValueError msg None.
Definition mkRuntimeError (msg : string) : exn := mk_exn RuntimeError msg None.

(** A call either returns a value or raises. *)
Inductive result (A : Type) : Type :=
| Return (a : A)
| Raise (e : exn).
Arguments Return {A} a.
Arguments Raise {A} e.

(** ** [config.py] *)

Module KaitenConfig.

Definition MAX_RETRIES : nat := 3.
Definition RETRY_DELAY : Q := 1.
Definition API_VERSION : string := "v1".
Definition LIMIT_PER_SEC : nat := 3.
Definition ENDPOINT_CARDS : string := "/cards".
Definition SERVICE_SUFFIX : string := ".kaiten.ru".

(** The domain part of [get_base_url]: protocols and slashes removed,
    then the service suffix added unless already there. *)
Definition domain_core (domain : string) : string :=
  PyStr.rstrip_slash
    (PyStr.replace "http://" "" (PyStr.replace "https://" "" (PyStr.strip domain))).

Definition with_suffix (core : string) : string :=
  if negb (PyStr.endswith core SERVICE_SUFFIX) then core +:+ SERVICE_SUFFIX else core.

Definition get_base_url (domain : string) : result string :=
if PyStr.falsy domain
then Raise (mkValueError "Domain не может быть пустым")
else Return ("https://" +:+ with_suffix (domain_core domain) +:+ "/api/" +:+ API_VERSION).

(** The normalisation as the specification words it: only a leading
    ["https://"] and a leading ["http://"] are stripped. *)
Definition spec_domain_core (domain : string) : string :=
  PyStr.rstrip_slash
    (PyStr.strip_prefix "http://" (PyStr.strip_prefix "https://" (PyStr.strip domain))).

Definition spec_base_url (domain : string) : string :=
  "https://" +:+ with_suffix (spec_domain_core domain) +:+ "/api/" +:+ API_VERSION.

End KaitenConfig.

Module KaitenCredentials.

Record t : Type := mk { _domain : string; _token : string }.

(** [KaitenCredentials.__init__] *)
Definition __init__ (domain token : string) : result t :=
if PyStr.falsy domain || PyStr.falsy (PyStr.strip domain)
then Raise (mkValueError "Domain обязателен")
else if PyStr.falsy token || PyStr.falsy (PyStr.strip token)
then Raise (mkValueError "API token обязателен")
else Return (mk (PyStr.strip domain) (PyStr.strip token)).

Definition base_url (c : t) : result string := KaitenConfig.get_base_url (_domain c).

(** Empty, or made of whitespace only. *)
Fixpoint blank (s : string) : bool :=
match s with
| EmptyString => true
| String c s' => PyStr.isspace c && blank s'
end.

End KaitenCredentials.

(** ** The rate window ([KaitenClient._request_times]) *)

Module RateWindow.

(** [x < y] on clock readings. *)
Definition Qltb (x y : Q) : bool := negb (Qle_bool y x).

(** [now - t < 1.0]: [t] was recorded within the second that ends at [now].
    The difference is the exact one; the code's is the float nearest to
    it, which is the same for [1.0 <= t <= now] wherever the test holds. *)
Definition recent (now t : Q) : bool := Qltb (now - t) 1.

(** [[t for t in self._request_times if now - t < 1.0]] *)
Definition prune (now : Q) (window : list Q) : list Q := List.filter (recent now) window.

(** [min(window)]; [None] stands for the [ValueError] on an empty list. *)
Fixpoint minimum (window : list Q) : option Q :=
match window with
| [] => None
| t :: rest =>
    match minimum rest with
    | None => Some t
    | Some m => Some (if Qltb m t then m else t)
    end
end.

(** What one pass through the limiter (one clock reading, the pruning and
    the size check that follow it) decides. *)
Inductive verdict : Type :=
| Granted                (* room: the reading is appended to the window *)
| Wait (sleep_time : Q)  (* full: [await asyncio.sleep(sleep_time)] *)
| Again                  (* full, [sleep_time <= 0]: read the clock again *)
| MinOfEmpty.            (* full with an empty window: [min] raises *)

(** Lines 123-137 of [kaiten_client.py] between two suspension points:
    the clock is read, the window pruned and its size checked against the
    limit; then either the reading is appended or the sleep is computed. *)
Definition pass (limit : nat) (now : Q) (window : list Q) : list Q * verdict :=
let window := prune now window in
if (limit <=? length window)%nat then
  match minimum window with
  | None => (window, MinOfEmpty)
  | Some oldest_request_time =>
      let sleep_time := (1 - (now - oldest_request_time))%Q in
      (window, if Qltb 0 sleep_time then Wait sleep_time else Again)
  end
else (window ++ [now], Granted).

(** A timestamp falls within the trailing one-second window that ends at
    [T]: it is not after [T] and less than a second before it. *)
Definition in_window (T t : Q) : bool := Qle_bool t T && recent T t.

(** How many of the timestamps [stamps] fall within the window ending at [T]. *)
Definition count_in (T : Q) (stamps : list Q) : nat := length (List.filter (in_window T) stamps).

(** The window [w] and the stamps [h] recorded since it was last cleared,
    at the clock reading [c] under the limit [limit]: what is recent in
    one is recent in the other, no trailing second holds more than [limit]
    of the stamps, and the window has at most [limit] entries. *)
Record consistent (limit : nat) (w h : list Q) (c : Q) : Prop := {
  same_recent : prune c w = prune c h;
  bounded : forall T, (count_in T h <= limit)%nat;
  short : (length w <= limit)%nat
}.

End RateWindow.

(** ** JSON values and HTTP exchanges *)

(** A decoded JSON body, as [json.loads] gives it: [JNull] is [None], an
    object is a [dict] with string keys. *)
#[warnings="-register-all"]
Inductive json : Type :=
| JNull
| JBool (b : bool)
| JInt (n : Z)
| JFloat (q : Q)
| JStr (s : string)
| JList (items : list json)
| JObject (fields : gmap string json).

(** The outcome of awaiting something of aiohttp: a value, an
    [aiohttp.ClientError] (with its [str]) or an exception of another class. *)
Inductive io (A : Type) : Type :=
| Ok (a : A)
| ClientError (e : string)
| OtherError (e : string).
Arguments Ok {A} a.
Arguments ClientError {A} e.
Arguments OtherError {A} e.

(** What [_request] looks at in an [aiohttp.ClientResponse]. *)
Record response : Type := mk_response {
  status : Z;
  retry_after : option string;   (* [headers.get('Retry-After')] *)
  json_body : io json;           (* [await response.json()] *)
  text_body : io string          (* [await response.text()] *)
}.

(** A value of a query parameter, and its [str]. *)
Inductive pyval : Type :=
| PNone
| PBool (b : bool)
| PInt (n : Z)
| PStr (s : string).

Definition str_val (v : pyval) : string :=
match v with
| PNone => "None"
| PBool true => "True"
| PBool false => "False"
| PInt n => PyStr.str_int n
| PStr s => s
end.

(** ** [kaiten_client.py] *)

Module KaitenClient.

(** The three class attributes of [KaitenConfig] that [_request] reads. *)
Record settings : Type := mk_settings {
  LIMIT_PER_SEC : nat;
  MAX_RETRIES : nat;
  RETRY_DELAY : Q
}.

Definition defaults : settings :=
  mk_settings KaitenConfig.LIMIT_PER_SEC KaitenConfig.MAX_RETRIES KaitenConfig.RETRY_DELAY.

(** The attributes of a client.  [session] tells whether [self.session] is
    set. *)
Record client : Type := mk_client {
  token : string;
  domain : string;
  session : bool;
  _request_times : list Q;
  config : KaitenCredentials.t;
  _is_initialized : bool
}.

(** [KaitenClient.__init__] *)
Definition __init__ (token domain : string) : result client :=
match KaitenCredentials.__init__ domain token with
| Raise e => Raise e
| Return cred => Return (mk_client token domain false [] cred false)
end.

(** [KaitenClient.initialize] *)
Definition initialize (c : client) : client :=
if negb (_is_initialized c)
then mk_client (token c) (domain c) true (_request_times c) (config c) true
else c.

Definition set_request_times (c : client) (window : list Q) : client :=
mk_client (token c) (domain c) (session c) window (config c) (_is_initialized c).

(** One logical call: the arguments of [_request]. *)
Record call : Type := mk_call {
  method : string;
  endpoint : string;
  params : option (list (string * pyval))
}.

(** [url += f"{'&' if '?' in url else '?'}{key}={value}"] *)
Definition add_param (url : string) (kv : string * pyval) : string :=
url +:+ (if PyStr.contains "?" url then "&" else "?") +:+ fst kv +:+ "=" +:+ str_val (snd kv).

(** Lines 143-145: the parameters, in the order of the [dict], are appended
    to the URL; [None] and an empty [dict] append nothing. *)
Definition build_url (url : string) (params : option (list (string * pyval))) : string :=
match params with
| None => url
| Some items => fold_left add_param items url
end.

(** The query string in closed form: the parameters as [key=value], the
    first after [sep] and each later one after ["&"]. *)
Definition pair_text (kv : string * pyval) : string := fst kv +:+ "=" +:+ str_val (snd kv).

Fixpoint joined (sep : string) (items : list (string * pyval)) : string :=
match items with
| [] => EmptyString
| kv :: rest => sep +:+ pair_text kv +:+ joined "&" rest
end.

(** The query string as the specification words it: the first parameter
    after ["?"]. *)
Definition spec_query (items : list (string * pyval)) : string := joined "?" items.

(** What a call leaves behind, in the order it happens. *)
Inductive event : Type :=
| EvRecord (now : Q)                        (* [self._request_times.append(now)] *)
| EvSleep (seconds : Q)                     (* [await asyncio.sleep(seconds)] *)
| EvSend (attempt : nat) (method url : string)  (* [self.session.request(method, url)] *)
| EvClear.                                  (* [self._request_times = []] *)

(** Where a call is suspended.  Between two of these points a call runs
    without another call of the session being scheduled.  The awaits on the
    body of a response touch nothing shared and are folded into the
    exchange. *)
Inductive task : Type :=
| Entry (k : call)                          (* not started *)
| Throttled (k : call)                      (* in the limiter's sleep *)
| Sending (attempt : nat) (k : call) (url : string)     (* awaiting the exchange *)
| Backoff429 (attempt : nat) (k : call) (url : string)  (* sleeping after a 429 *)
| BackoffError (attempt : nat) (k : call) (url : string) (* sleeping after a ClientError *)
| Finished (r : result json).

(** What resumes a suspended call. *)
Inductive input : Type :=
| Clock (now : Q)            (* [asyncio.get_event_loop().time()] on running on *)
| Net (outcome : io response) (* the exchange finished *)
| Wake.                      (* a backoff sleep is over *)

Section Request.

(** [float(s)] of Python: [None] stands for [ValueError]. *)
Variable float_of_str : string -> option Q.
(** [str(v)] of a decoded JSON value, as an f-string renders it. *)
Variable str_of_json : json -> string.
Variable cfg : settings.

(** Lines 152-156: the delay a 429 response asks for. *)
Definition retry_delay_of (r : response) : Q :=
let retry_after := match retry_after r with Some v => v | None => "1" end in
match float_of_str retry_after with
| Some retry_delay => retry_delay
| None => 1
end.

(** The head of the [for] loop at [attempt]: the next exchange is sent, or
    the loop is over and the function returns [None]. *)
Definition start_attempt (attempt : nat) (k : call) (url : string) : task * list event :=
if (attempt <=? MAX_RETRIES cfg)%nat
then (Sending attempt k url, [EvSend attempt (method k) url])
else (Finished (Return JNull), []).

(** Lines 183-188: the handler of [aiohttp.ClientError]. *)
Definition on_client_error (attempt : nat) (k : call) (url : string) (e : string)
  : task * list event :=
if (attempt <? MAX_RETRIES cfg)%nat
then (BackoffError attempt k url, [EvSleep (RETRY_DELAY cfg)])
else (Finished (Raise (mkKaitenApiError
        ("HTTP client error after " +:+ PyStr.str_int (Z.of_nat (MAX_RETRIES cfg))
         +:+ " retries: " +:+ e))), []).

(** An awaited body inside the [try]: a [ClientError] goes to the handler,
    another exception leaves the call. *)
Definition with_body {A : Type} (attempt : nat) (k : call) (url : string)
    (body : io A) (cont : A -> result json) : task * list event :=
match body with
| Ok a => (Finished (cont a), [])
| ClientError e => on_client_error attempt k url e
| OtherError e => (Finished (Raise (mk_exn ForeignError e None)), [])
end.

(** Lines 149-181: the response of one exchange is classified. *)
Definition classify (attempt : nat) (k : call) (url : string) (r : response)
  : task * list event :=
if (status r =? 429)%Z then
  (Backoff429 attempt k url, [EvSleep (retry_delay_of r)])
else if (status r =? 404)%Z then
  (Finished (Raise (mkKaitenNotFoundError ("Resource not found: " +:+ endpoint k))), [])
else if (status r =? 422)%Z then
  with_body attempt k url (json_body r)
    (fun error_data =>
       Raise (mkKaitenValidationError ("Validation error: " +:+ str_of_json error_data)))
else if (400 <=? status r)%Z then
  with_body attempt k url (text_body r)
    (fun error_data =>
       Raise (mkKaitenApiError
                ("API error " +:+ PyStr.str_int (status r) +:+ ": " +:+ error_data)))
else if (status r =? 204)%Z then
  (Finished (Return JNull), [])
else
  with_body attempt k url (json_body r) (fun v => Return v).

(** Lines 116-145 from one reading of the clock on: the session check (at
    the entry only; [initialize] does not suspend), one pass of the limiter
    and, once the reading is recorded, the URL and the first exchange.  A
    full window with a sleep time that is not positive sends the loop round
    without a sleep: the call then stays [Throttled] for its next reading. *)
Definition acquire (at_entry : bool) (now : Q) (k : call) (c : client)
  : task * client * list event :=
let c := if at_entry then initialize c else c in
if at_entry && negb (session c) then
  (Finished (Raise (mkRuntimeError
     "Client session not available. Call initialize() first or use 'async with' context manager.")),
   c, [])
else
  let '(window, v) := RateWindow.pass (LIMIT_PER_SEC cfg) now (_request_times c) in
  let c := set_request_times c window in
  match v with
  | RateWindow.Wait sleep_time => (Throttled k, c, [EvSleep sleep_time])
  | RateWindow.Again => (Throttled k, c, [])
  | RateWindow.MinOfEmpty =>
      (Finished (Raise (mkValueError "min() arg is an empty sequence")), c, [])
  | RateWindow.Granted =>
      match KaitenConfig.get_base_url (domain c) with
      | Raise e => (Finished (Raise e), c, [EvRecord now])
      | Return base =>
          let url := build_url (base +:+ endpoint k) (params k) in
          let '(t, evs) := start_attempt 1 k url in
          (t, c, EvRecord now :: evs)
      end
  end.

(** [_request] from one suspension point to the next: [None] when the
    input is not what the call is waiting for. *)
Definition step (i : input) (t : task) (c : client) : option (task * client * list event) :=
match t, i with
| Entry k, Clock now => Some (acquire true now k c)
| Throttled k, Clock now => Some (acquire false now k c)
| Sending attempt k url, Net (Ok r) =>
    let '(t, evs) := classify attempt k url r in Some (t, c, evs)
| Sending attempt k url, Net (ClientError e) =>
    let '(t, evs) := on_client_error attempt k url e in Some (t, c, evs)
| Sending attempt k url, Net (OtherError e) =>
    Some (Finished (Raise (mk_exn ForeignError e None)), c, [])
| Backoff429 attempt k url, Wake =>
    let c := set_request_times c [] in
    if (attempt <? MAX_RETRIES cfg)%nat
    then let '(t, evs) := start_attempt (S attempt) k url in Some (t, c, EvClear :: evs)
    else Some (Finished (Raise (mkKaitenApiError
                 ("Rate limit exceeded after "
                  +:+ PyStr.str_int (Z.of_nat (MAX_RETRIES cfg)) +:+ " retries"))),
               c, [EvClear])
| BackoffError attempt k url, Wake =>
    let '(t, evs) := start_attempt (S attempt) k url in Some (t, c, evs)
| _, _ => None
end.

(** [_request]: one call on its own, fed the inputs it is resumed with,
    as far as they take it. *)
Fixpoint _request (inputs : list input) (t : task) (c : client)
  : option (task * client * list event) :=
match inputs with
| [] => Some (t, c, [])
| i :: rest =>
    match step i t c with
    | None => None
    | Some (t', c', evs) =>
        match _request rest t' c' with
        | None => None
        | Some (t'', c'', evs') => Some (t'', c'', evs ++ evs')
        end
    end
end.

(** *** Concurrent calls on one session *)

(** The session, the calls in flight, the last clock reading and the events
    of all calls in the order they happened. *)
Record system : Type := mk_system {
  shared : client;
  pool : list task;
  clock : Q;
  journal : list event
}.

Definition boot (c : client) (t0 : Q) : system := mk_system c [] t0 [].

(** The scheduler's moves: a new call is made, or the call in slot [slot]
    runs on from its suspension point. *)
Inductive action : Type :=
| Spawn (k : call)
| Resume (slot : nat) (i : input).

(** The clock is monotonic: a reading is never below the one before it. *)
Definition admissible (s : system) (i : input) : bool :=
match i with
| Clock now => Qle_bool (clock s) now
| _ => true
end.

Definition advance (s : system) (i : input) : Q :=
match i with
| Clock now => now
| _ => clock s
end.

Definition exec1 (a : action) (s : system) : option system :=
match a with
| Spawn k => Some (mk_system (shared s) (pool s ++ [Entry k]) (clock s) (journal s))
| Resume slot i =>
    match pool s !! slot with
    | None => None
    | Some t =>
        if admissible s i then
          match step i t (shared s) with
          | None => None
          | Some (t', c', evs) =>
              Some (mk_system c' (<[slot := t']> (pool s)) (advance s i) (journal s ++ evs))
          end
        else None
    end
end.

(** A schedule is run move by move; [None] when a move is not possible. *)
Fixpoint exec (schedule : list action) (s : system) : option system :=
match schedule with
| [] => Some s
| a :: rest =>
    match exec1 a s with
    | None => None
    | Some s' => exec rest s'
    end
end.

End Request.

(** *** What the events say *)

(** The timestamps recorded, all of them. *)
Fixpoint recorded (evs : list event) : list Q :=
match evs with
| [] => []
| EvRecord now :: rest => now :: recorded rest
| _ :: rest => recorded rest
end.

(** The timestamps recorded since the window was last cleared, given those
    [before] the events. *)
Fixpoint since_clear (before : list Q) (evs : list event) : list Q :=
match evs with
| [] => before
| EvRecord now :: rest => since_clear (before ++ [now]) rest
| EvClear :: rest => since_clear [] rest
| _ :: rest => since_clear before rest
end.

(** The exchanges sent and the backoff sleeps. *)
Fixpoint sends (evs : list event) : list nat :=
match evs with
| [] => []
| EvSend attempt _ _ :: rest => attempt :: sends rest
| _ :: rest => sends rest
end.

Fixpoint sleeps (evs : list event) : list Q :=
match evs with
| [] => []
| EvSleep d :: rest => d :: sleeps rest
| _ :: rest => sleeps rest
end.

(** What the events of the call [k] amount to at each point of its life,
    under a budget of [retries] attempts: nothing sent or recorded before
    the limiter lets it through; from then on one timestamp recorded and the
    attempts [1 .. n] sent, in order. *)
Definition well_shaped (retries : nat) (k : call) (t : task) (evs : list event) : Prop :=
match t with
| Entry k' | Throttled k' => k' = k /\ sends evs = [] /\ recorded evs = []
| Sending n k' _ | Backoff429 n k' _ =>
    k' = k /\ sends evs = seq 1 n /\ length (recorded evs) = 1%nat /\ (1 <= n <= retries)%nat
| BackoffError n k' _ =>
    k' = k /\ sends evs = seq 1 n /\ length (recorded evs) = 1%nat /\ (1 <= n < retries)%nat
| Finished _ =>
    (length (recorded evs) <= 1)%nat /\ exists n, sends evs = seq 1 n /\ (n <= retries)%nat
end.

(** *** The facade *)

(** [type(v).__name__] of a decoded body, as Python's messages quote it. *)
Definition type_name (v : json) : string :=
match v with
| JNull => "NoneType"
| JBool _ => "bool"
| JInt _ => "int"
| JFloat _ => "float"
| JStr _ => "str"
| JList _ => "list"
| JObject _ => "dict"
end.

(** Reading [.get] of a value that is no [dict]. *)
Definition no_get (v : json) : exn :=
mk_exn AttributeError ("'" +:+ type_name v +:+ "' object has no attribute 'get'") None.

(** The expression of lines 384, 490, 520, 542, 594, 651, 718, 803, 811,
    871, 935 and 1247:
    [response if isinstance(response, list) else response.get('items', [])];
    a body that is neither a list nor an object has no [get]. *)
Definition items_of (response : json) : result json :=
match response with
| JList _ => Return response
| JObject fields =>
    Return (match fields !! "items" with Some v => v | None => JList [] end)
| _ => Raise (no_get response)
end.

(** [get_space_users] on the result of its [_request] (lines 717-718): the
    value of the expression is returned as it is. *)
Definition get_space_users (r : result json) : result json :=
match r with
| Return response => items_of response
| Raise e => Raise e
end.

(** A [Card] as [KaitenObject.__init__] leaves it: the dictionary it was
    given and [_id], the value under ["id"] or [None]. *)
Record card : Type := mk_card {
  card_data : gmap string json;
  card_id : json
}.

(** [KaitenObject.__init__] on a dictionary: [self._data = data] and
    [self._id = data.get('id')]. *)
Definition card_of (fields : gmap string json) : card :=
mk_card fields (match fields !! "id" with Some v => v | None => JNull end).

(** [Card(self, card_data)]: [__init__] evaluates [data.get('id')], which
    only a [dict] has. *)
Definition Card (card_data : json) : result card :=
match card_data with
| JObject fields => Return (card_of fields)
| _ => Raise (no_get card_data)
end.

(** What [for card_data in cards_data] goes through: the elements of a
    list, the keys of a [dict], the characters of a [str]; other values are
    not iterable. *)
Definition iterate (cards_data : json) : result (list json) :=
match cards_data with
| JList items => Return items
| JObject fields => Return (map (fun kv => JStr (fst kv)) (map_to_list fields))
| JStr s => Return (map (fun ch => JStr (String ch EmptyString)) (list_ascii_of_string s))
| _ => Raise (mk_exn TypeError ("'" +:+ type_name cards_data +:+ "' object is not iterable") None)
end.

(** The comprehension of line 385: the elements are wrapped in order, and
    the first that cannot be raises. *)
Fixpoint cards_of (items : list json) : result (list card) :=
match items with
| [] => Return []
| card_data :: rest =>
    match Card card_data with
    | Raise e => Raise e
    | Return c =>
        match cards_of rest with
        | Raise e => Raise e
        | Return cards => Return (c :: cards)
        end
    end
end.

(** [get_cards] on the result of its [_request] (lines 383-385). *)
Definition get_cards (r : result json) : result (list card) :=
match r with
| Raise e => Raise e
| Return response =>
    match items_of response with
    | Raise e => Raise e
    | Return cards_data =>
        match iterate cards_data with
        | Raise e => Raise e
        | Return items => cards_of items
        end
    end
end.

(** [delete_card]: the call it makes and what it returns on the result. *)
Definition delete_card_call (card_id : Z) : call :=
mk_call "DELETE" (KaitenConfig.ENDPOINT_CARDS +:+ "/" +:+ PyStr.str_int card_id) None.

Definition delete_card (r : result json) : result bool :=
match r with
| Return _ => Return true
| Raise e => Raise e
end.

(** [float] on the decimal literals without sign, fraction or exponent, to
    run the model on: [None] elsewhere. *)
Definition float_of_digits (s : string) : option Q :=
match NilEmpty.uint_of_string s with
| Some d => match s with EmptyString => None | _ => Some (inject_Z (Z.of_uint d)) end
| None => None
end.

(** A stand-in for [str] on JSON values, to run the model on. *)
Definition str_of_json_stub (v : json) : string :=
match v with
| JNull => "None"
| JStr s => s
| JInt n => PyStr.str_int n
| _ => "..."
end.

(** A session and a Python runtime to run the model on. *)
Definition demo_client : client :=
  mk_client "secret" "co" false [] (KaitenCredentials.mk "co" "secret") false.

Definition demo_run : list input -> task -> client -> option (task * client * list event) :=
  _request float_of_digits str_of_json_stub defaults.

(** The session is ready: the invariant of the rate window holds of the
    shared window and of the timestamps recorded since it was last cleared. *)
Definition session_ok (cfg : settings) (s : system) : Prop :=
  RateWindow.consistent (LIMIT_PER_SEC cfg) (_request_times (shared s))
    (since_clear [] (journal s)) (clock s).

(** The readings of the clock in a schedule. *)
Fixpoint readings (schedule : list action) : list Q :=
match schedule with
| [] => []
| Resume _ (Clock now) :: rest => now :: readings rest
| _ :: rest => readings rest
end.

(** The clock has passed 1.0 at each of its readings.  The timestamps are
    binary64 floats and line 125 compares the rounded difference
    [now - t] with 1.0; from 1.0 on, for [t <= now], the difference is
    below 1.0 only where it is a float itself, so the comparison, and the
    [sleep_time] of line 134, are the exact ones of [RateWindow].  Below
    1.0 a difference just under one second can round to 1.0, and the code
    prunes a timestamp the exact comparison keeps. *)
Definition from_one_second (schedule : list action) : bool :=
forallb (Qle_bool 1) (readings schedule).

(** Events that neither record a timestamp nor clear the window. *)
Definition inert (evs : list event) : Prop := forall before, since_clear before evs = before.

End KaitenClient.

(** ** [models/base.py] *)

Module KaitenObject.

(** A location of the store: Python dictionaries are shared by reference. *)
Abbreviation loc := nat.

(** What a dictionary holds under a key: a scalar, or a reference to
    another object of the store (a nested list or dictionary). *)
Inductive value : Type :=
| VNone
| VBool (b : bool)
| VInt (n : Z)
| VStr (s : string)
| VRef (l : loc).

Abbreviation dict := (gmap string value).
Abbreviation heap := (gmap nat (gmap string value)).

(** The classes of [models/]: each of them derives from [KaitenObject]
    and none overrides [__eq__] or [__hash__]. *)
Inductive class : Type :=
| KaitenObject | Space | Board | Column | Lane | Card | Tag | Comment
| Member | File | Property | Checklist | ChecklistItem.

#[global] Instance class_eq_dec : EqDecision class.
Proof. solve_decision. Defined.

(** An instance: its class, the dictionary [_data] refers to, and the
    [_id] taken at construction. *)
Record obj : Type := mk_obj {
  cls : class;
  _data : loc;
  _id : option Z
}.

(** An identifier is an [Optional[int]]: [None], or an [int] ([bool] is a
    subclass of [int]).  Other values are outside the declared type. *)
Definition as_id (v : value) : option (option Z) :=
match v with
| VNone => Some None
| VBool b => Some (Some (Z.b2z b))
| VInt n => Some (Some n)
| VStr _ | VRef _ => None
end.

(** [d.get(key, default)] *)
Definition dict_get (d : dict) (key : string) (default : value) : value :=
match d !! key with
| Some v => v
| None => default
end.

(** [KaitenObject.__init__]: the dictionary is kept by reference. *)
Definition __init__ (c : class) (data : loc) (h : heap) : option obj :=
match h !! data with
| None => None
| Some d =>
    match as_id (dict_get d "id" VNone) with
    | None => None
    | Some i => Some (mk_obj c data i)
    end
end.

(** The property [id]: [self._id], but [Checklist] and [ChecklistItem]
    override it with [self._data.get('id')]. *)
Definition id (o : obj) (h : heap) : option (option Z) :=
match cls o with
| Checklist | ChecklistItem =>
    match h !! _data o with
    | None => None
    | Some d => as_id (dict_get d "id" VNone)
    end
| _ => Some (_id o)
end.

(** The property [data]: [self._data.copy()], a new dictionary with the
    same keys and values.  [Property] overrides it (property.py, lines
    64-67) with [self._data.get('data')]: the value under the key ["data"],
    or [None], and nothing is copied. *)
Definition data (o : obj) (h : heap) : option (value * heap) :=
match h !! _data o with
| None => None
| Some d =>
    match cls o with
    | Property => Some (dict_get d "data" VNone, h)
    | _ => let l := fresh (dom h) in Some (VRef l, <[l := d]> h)
    end
end.

(** [__getitem__]: [self._data[key]] *)
Definition __getitem__ (o : obj) (key : string) (h : heap)
  : option (result value) :=
match h !! _data o with
| None => None
| Some d =>
    Some (match d !! key with
          | Some v => Return v
          | None => Raise (mk_exn KeyError key None)
          end)
end.

(** [__contains__]: [key in self._data] *)
Definition __contains__ (o : obj) (key : string) (h : heap)
  : option bool :=
match h !! _data o with
| None => None
| Some d => Some (bool_decide (is_Some (d !! key)))
end.

(** [get]: [self._data.get(key, default)] *)
Definition get (o : obj) (key : string) (default : value) (h : heap)
  : option value :=
match h !! _data o with
| None => None
| Some d => Some (dict_get d key default)
end.

(** What a holder of a dictionary can do to its top-level keys. *)
Inductive dict_op : Type :=
| SetItem (key : string) (v : value)   (* [d[key] = v]: adds or replaces *)
| DelItem (key : string)               (* [del d[key]], [d.pop(key, None)] *)
| ClearAll.                            (* [d.clear()] *)

Definition apply_op (op : dict_op) (d : dict) : dict :=
match op with
| SetItem key v => <[key := v]> d
| DelItem key => delete key d
| ClearAll => ∅
end.

(** The operations are applied, in order, to the dictionary at [l]. *)
Definition mutate (l : loc) (ops : list dict_op) (h : heap)
  : heap :=
fold_left (fun h op => alter (apply_op op) l h) ops h.

(** Anything [__eq__] can be compared with. *)
Inductive pyobj : Type :=
| Kaiten (o : obj)
| Foreign (v : value).

Section Equality.

(** [hash((cls, id))] of Python, a function of the pair. *)
Variable hash_pair : class -> option Z -> Z.

(** [__eq__] *)
Definition __eq__ (self : obj) (other : pyobj) (h : heap)
  : option bool :=
match other with
| Foreign _ => Some false
| Kaiten other =>
    match id self h, id other h with
    | Some a, Some b =>
        Some (bool_decide (a = b) && bool_decide (cls self = cls other))
    | _, _ => None
    end
end.

(** [__hash__] *)
Definition __hash__ (self : obj) (h : heap) : option Z :=
match id self h with
| Some a => Some (hash_pair (cls self) a)
| None => None
end.

End Equality.

End KaitenObject.

(** ** More of [kaiten_client.py]: the session's life and retry scripts *)

Module Session.
Import KaitenClient.

(** [KaitenClient.close]: the session is dropped where there is one; the
    rate window is left as it is. *)
Definition close (c : client) : client :=
if session c && _is_initialized c
then mk_client (token c) (domain c) false (_request_times c) (config c) false
else c.

(** [self.session] is set exactly when [self._is_initialized] is. *)
Definition coherent (c : client) : Prop := session c = _is_initialized c.

(** What the client does to itself from outside a call. *)
Inductive lifecycle : Type :=
| Initialize
| Close.

Definition apply_lifecycle (l : lifecycle) (c : client) : client :=
match l with
| Initialize => initialize c
| Close => close c
end.

(** The inputs of a call whose exchanges raise the [ClientError]s [errors],
    one after the other, from an exchange in flight on: each error but the
    last is followed by the end of the backoff sleep. *)
Fixpoint failing (errors : list string) : list input :=
match errors with
| [] => []
| [e] => [Net (ClientError e)]
| e :: rest => Net (ClientError e) :: Wake :: failing rest
end.

(** The exception classes a caller of [_request] has to expect: the three
    the client raises itself, and whatever the transport raises that is not
    an [aiohttp.ClientError]. *)
Definition expected_kind (e : exn) : bool :=
match exn_type e with
| KaitenApiError | KaitenNotFoundError | KaitenValidationError | ForeignError => true
| _ => false
end.

(** The exception a finished call raised, if any, is of an expected kind. *)
Definition raises_expected (t : task) : Prop :=
match t with
| Finished (Raise e) => expected_kind e = true
| _ => True
end.

(** The client is closed and opened between the moves of the scheduler. *)
Definition drive1 (float_of_str : string -> option Q) (str_of_json : json -> string)
    (cfg : settings) (op : lifecycle + action) (s : system) : option system :=
match op with
| inl l => Some (mk_system (apply_lifecycle l (shared s)) (pool s) (clock s) (journal s))
| inr a => exec1 float_of_str str_of_json cfg a s
end.

Fixpoint drive (float_of_str : string -> option Q) (str_of_json : json -> string)
    (cfg : settings) (ops : list (lifecycle + action)) (s : system) : option system :=
match ops with
| [] => Some s
| op :: rest =>
    match drive1 float_of_str str_of_json cfg op s with
    | None => None
    | Some s' => drive float_of_str str_of_json cfg rest s'
    end
end.

(** Every stamp of the shared window was read off the clock no later than
    the last reading. *)
Definition stamps_in_past (s : system) : Prop :=
  forall t, In t (_request_times (shared s)) -> (t <= clock s)%Q.

End Session.

(** ** [get_cards]: the query parameters *)

Module GetCards.

(** A [dict] in the order of insertion. *)
Abbreviation pydict := (list (string * pyval)).

Fixpoint dict_get (key : string) (d : pydict) : option pyval :=
match d with
| [] => None
| (k, v) :: rest => if String.eqb k key then Some v else dict_get key rest
end.

(** [d[key] = v]: the value is replaced where the key is, appended otherwise. *)
Fixpoint dict_set (key : string) (v : pyval) (d : pydict) : pydict :=
match d with
| [] => [(key, v)]
| (k, w) :: rest =>
    if String.eqb k key then (k, v) :: rest else (k, w) :: dict_set key v rest
end.

(** A dict display [{k1: v1, ..., **extra}]: the items are set in order. *)
Definition dict_of (items : pydict) : pydict :=
fold_left (fun d kv => dict_set (fst kv) (snd kv) d) items [].

(** [bool(v)] *)
Definition truthy (v : pyval) : bool :=
match v with
| PNone => false
| PBool b => b
| PInt n => negb (n =? 0)%Z
| PStr s => negb (PyStr.falsy s)
end.

(** [v is not None] *)
Definition is_not_none (v : pyval) : bool :=
match v with
| PNone => false
| _ => true
end.

(** The keys of [all_params] that come from the signature, in the order of
    the dict display (lines 328-374); [filter] is the argument [filter_]. *)
Definition named_filters : list string :=
  ["created_before"; "created_after"; "updated_before"; "updated_after";
   "first_moved_in_progress_after"; "first_moved_in_progress_before";
   "last_moved_to_done_at_after"; "last_moved_to_done_at_before";
   "due_date_after"; "due_date_before"; "query"; "tag"; "tag_ids"; "type_ids";
   "exclude_board_ids"; "exclude_lane_ids"; "exclude_column_ids";
   "exclude_owner_ids"; "exclude_card_ids"; "column_ids"; "member_ids";
   "owner_ids"; "responsible_ids"; "organizations_ids"; "states"; "external_id";
   "additional_card_fields"; "search_fields"; "space_id"; "column_id"; "lane_id";
   "condition"; "type_id"; "responsible_id"; "owner_id"; "archived"; "asap";
   "overdue"; "done_on_time"; "with_due_date"; "is_request"; "limit"; "offset";
   "order_space_id"; "order_by"; "order_direction"; "filter"].

(** Lines 327-375: [all_params], from the value [arg key] of each named
    argument and the extra keyword arguments. *)
Definition all_params (arg : string -> pyval) (extra_filters : pydict) : pydict :=
dict_of (map (fun key => (key, arg key)) named_filters ++ extra_filters).

(** Lines 320-381: [params]: [board_id] where it is truthy, then every
    item of [all_params] whose value is not [None]. *)
Definition params (board_id : pyval) (arg : string -> pyval) (extra_filters : pydict) : pydict :=
fold_left
  (fun p kv => if is_not_none (snd kv) then dict_set (fst kv) (snd kv) p else p)
  (all_params arg extra_filters)
  (if truthy board_id then [("board_id", board_id)] else []).

(** The call [get_cards] makes (line 383). *)
Definition call_of (board_id : pyval) (arg : string -> pyval) (extra_filters : pydict)
  : KaitenClient.call :=
KaitenClient.mk_call "GET" KaitenConfig.ENDPOINT_CARDS (Some (params board_id arg extra_filters)).

(** The arguments of a call that gives some of the named ones: the others
    are [None]. *)
Definition args_of (given : pydict) (key : string) : pyval :=
match dict_get key given with
| Some v => v
| None => PNone
end.

End GetCards.

(** ** [KaitenObject._parse_datetime] *)

Module ParseDatetime.

(** [value[:-1]] *)
Fixpoint but_last (s : string) : string :=
match s with
| EmptyString => EmptyString
| String c EmptyString => EmptyString
| String c s' => String c (but_last s')
end.

Section Parse.

(** [datetime.fromisoformat]; [None] stands for its [ValueError]. *)
Variable datetime : Type.
Variable fromisoformat : string -> option datetime.

(** [_parse_datetime]: nothing for [None] and for the empty string; a
    final ["Z"] is replaced by ["+00:00"]; a string the parser rejects gives
    [None]. *)
Definition _parse_datetime (value : option string) : option datetime :=
match value with
| None => None
| Some value =>
    if PyStr.falsy value then None
    else
      let value :=
        if PyStr.endswith value "Z" then but_last value +:+ "+00:00" else value in
      fromisoformat value
end.

End Parse.

End ParseDatetime.

(** ** [KaitenCredentials]: the header sets *)

Module Headers.

(** [get_headers] *)
Definition get_headers (c : KaitenCredentials.t) : list (string * string) :=
  [("Accept", "application/json");
   ("Content-Type", "application/json");
   ("Authorization", "Bearer " +:+ KaitenCredentials._token c)].

(** [get_upload_headers] *)
Definition get_upload_headers (c : KaitenCredentials.t) : list (string * string) :=
  [("Authorization", "Bearer " +:+ KaitenCredentials._token c)].

(** [headers.get(name)] *)
Fixpoint header (name : string) (headers : list (string * string)) : option string :=
match headers with
| [] => None
| (k, v) :: rest => if String.eqb k name then Some v else header name rest
end.

End Headers.

(** * Properties *)

Module PyStrFacts.
Import PyStr.

Lemma lstrip_with_fixed p s :
  match s with EmptyString => True | String c _ => p c = false end ->
  lstrip_with p s = s.
Proof. destruct s as [|c s]; simpl; [reflexivity|]. now intros ->. Qed.

Lemma lstrip_with_head p s :
  match lstrip_with p s with EmptyString => True | String c _ => p c = false end.
Proof.
  induction s as [|c s IH]; simpl; [exact I|].
  destruct (p c) eqn:E; [exact IH|]. simpl. exact E.
Qed.

Lemma rstrip_with_head p s :
  match s with EmptyString => True | String c _ => p c = false end ->
  match rstrip_with p s with EmptyString => True | String c _ => p c = false end.
Proof.
  destruct s as [|c s]; simpl; [trivial|]. intros E.
  destruct (rstrip_with p s); [rewrite E|]; simpl; exact E.
Qed.

Lemma rstrip_with_idem p s : rstrip_with p (rstrip_with p s) = rstrip_with p s.
Proof.
  induction s as [|c s IH]; simpl; [reflexivity|].
  destruct (rstrip_with p s) as [|d r] eqn:E.
  - destruct (p c) eqn:Ec; simpl; [reflexivity|]. now rewrite Ec.
  - simpl in *. now rewrite IH.
Qed.

Lemma strip_idem s : strip (strip s) = strip s.
Proof.
  unfold strip.
  rewrite (lstrip_with_fixed isspace (rstrip_with isspace (lstrip_with isspace s))).
  - apply rstrip_with_idem.
  - apply rstrip_with_head, lstrip_with_head.
Qed.

Lemma rstrip_slash_no_trailing s : endswith (rstrip_slash s) "/" = false.
Proof.
  unfold rstrip_slash.
  induction s as [|d s IH]; simpl; [reflexivity|].
  destruct (rstrip_with is_slash s) as [|e r] eqn:E.
  - unfold is_slash. destruct (Ascii.eqb d "/") eqn:Ed; simpl; [reflexivity|].
    now rewrite Ed.
  - cbn [endswith String.eqb]. destruct (Ascii.eqb d "/"); exact IH.
Qed.

Lemma endswith_app s suf : endswith (s +:+ suf) suf = true.
Proof.
  induction s as [|c s IH].
  - destruct suf; simpl; [reflexivity|]. now rewrite Ascii.eqb_refl, String.eqb_refl.
  - change (String c s +:+ suf) with (String c (s +:+ suf)). cbn [endswith].
    destruct (String.eqb (String c (s +:+ suf)) suf); [reflexivity|exact IH].
Qed.

Lemma prefix_app pat s : String.prefix pat (pat +:+ s) = true.
Proof.
  induction pat as [|c pat IH]; simpl; [now destruct s|].
  destruct (ascii_dec c c); [exact IH|congruence].
Qed.

Lemma drop_app pat s : drop (String.length pat) (pat +:+ s) = s.
Proof. induction pat as [|c pat IH]; simpl; [now destruct s|exact IH]. Qed.

Lemma replace_from_skip old new t s :
  replace_from old new (String.length t) (t +:+ s) = replace_from old new 0 s.
Proof.
  induction t as [|c t IH]; simpl; [reflexivity|exact IH].
Qed.

(** Removing a pattern from a string that starts with it removes that
    leading occurrence and goes on with the rest. *)
Lemma replace_leading c old s :
  replace (String c old) "" (String c old +:+ s) = replace (String c old) "" s.
Proof.
  unfold replace. change (String c old +:+ s) with (String c (old +:+ s)).
  cbn [replace_from].
  change (String c (old +:+ s)) with (String c old +:+ s) at 1.
  rewrite prefix_app.
  replace (String.length (String c old) - 1) with (String.length old)
    by (cbn [String.length]; lia).
  apply replace_from_skip.
Qed.

(** A string in which the pattern does not occur is left as it is. *)
Lemma replace_absent old new s : occurs old s = false -> replace old new s = s.
Proof.
  unfold replace. induction s as [|c s IH]; [reflexivity|].
  cbn [occurs replace_from]. intros H. apply orb_false_iff in H as [H1 H2].
  rewrite H1. f_equal. now apply IH.
Qed.

End PyStrFacts.

(** ** [config.py] *)

Module ConfigFacts.
Import PyStr PyStrFacts KaitenConfig.

Lemma lstrip_blank s : lstrip_with isspace s = EmptyString <-> KaitenCredentials.blank s = true.
Proof.
induction s as [|c s IH]; simpl; [tauto|].
destruct (isspace c); simpl; [exact IH|]. split; discriminate.
Qed.

Lemma rstrip_with_empty p s :
  match s with EmptyString => True | String c _ => p c = false end ->
  rstrip_with p s = EmptyString -> s = EmptyString.
Proof.
destruct s as [|c s]; simpl; [reflexivity|]. intros E.
destruct (rstrip_with p s); [rewrite E|]; discriminate.
Qed.

(** [strip] leaves nothing exactly when the string is empty or made of
    whitespace only. *)
Lemma strip_blank s : strip s = EmptyString <-> KaitenCredentials.blank s = true.
Proof.
rewrite <- lstrip_blank. unfold strip. split.
- apply rstrip_with_empty, lstrip_with_head.
- now intros ->.
Qed.

(** C8. Constructing credentials with an empty or whitespace-only domain, or
    with an empty or whitespace-only token, raises [ValueError] (the
    configuration error of this code); a credentials object that was
    constructed stores the trimmed domain and token, and both are non-empty
    after trimming. *)
Theorem credentials_init_validates (domain token : string) :
  ((KaitenCredentials.blank domain = true \/ KaitenCredentials.blank token = true) ->
     exists e, KaitenCredentials.__init__ domain token = Raise e /\ exn_type e = ValueError)
  /\ (forall c, KaitenCredentials.__init__ domain token = Return c ->
        KaitenCredentials._domain c = strip domain
        /\ KaitenCredentials._token c = strip token
        /\ strip (KaitenCredentials._domain c) <> EmptyString
        /\ strip (KaitenCredentials._token c) <> EmptyString
        /\ KaitenCredentials.blank domain = false
        /\ KaitenCredentials.blank token = false)
  /\ (KaitenCredentials.blank domain = false -> KaitenCredentials.blank token = false ->
        KaitenCredentials.__init__ domain token
        = Return (KaitenCredentials.mk (strip domain) (strip token))).
Proof.
unfold KaitenCredentials.__init__.
destruct (KaitenCredentials.blank domain) eqn:Bd.
- (* the domain is blank *)
  pose proof (proj2 (strip_blank domain) Bd) as ->.
  rewrite orb_true_r. split; [eauto|]. split; discriminate.
- assert (Hd : strip domain <> EmptyString) by (rewrite strip_blank; congruence).
  assert (falsy domain || falsy (strip domain) = false) as ->.
  { destruct domain; [discriminate Bd|]. now destruct (strip (String a domain)). }
  destruct (KaitenCredentials.blank token) eqn:Bt.
  + (* the token is blank *)
    pose proof (proj2 (strip_blank token) Bt) as ->.
    rewrite orb_true_r. split; [eauto|]. split; discriminate.
  + assert (Ht : strip token <> EmptyString) by (rewrite strip_blank; congruence).
    assert (falsy token || falsy (strip token) = false) as ->.
    { destruct token; [discriminate Bt|]. now destruct (strip (String a token)). }
    split; [intros [H|H]; discriminate H|]. split; [|reflexivity].
    intros c H. injection H as <-.
    cbn [KaitenCredentials._domain KaitenCredentials._token].
    rewrite !strip_idem. repeat split; auto.
Qed.

Example credentials_trimmed :
  KaitenCredentials.__init__ " co " "secret "
  = Return (KaitenCredentials.mk "co" "secret").
Proof. reflexivity. Qed.

Example credentials_blank_token :
  KaitenCredentials.__init__ "co" "  " = Raise (mkValueError "API token обязателен").
Proof. reflexivity. Qed.

Lemma prefix_split pat s :
  String.prefix pat s = true -> s = pat +:+ drop (String.length pat) s.
Proof.
revert s. induction pat as [|c pat IH]; intros s H.
- now destruct s.
- destruct s as [|d s]; [discriminate H|]. simpl in H.
  destruct (ascii_dec c d) as [->|]; [|discriminate H].
  change (String d s = String d (pat +:+ drop (String.length pat) s)).
  f_equal. now apply IH.
Qed.

Lemma occurs_https_after_http y :
  occurs "https://" ("http://" +:+ y) = occurs "https://" y.
Proof. reflexivity. Qed.

Lemma replace_protocols_leading_http x :
  occurs "https://" (strip_prefix "http://" x) = false ->
  occurs "http://" (strip_prefix "http://" x) = false ->
  replace "http://" "" (replace "https://" "" x) = strip_prefix "http://" x.
Proof.
unfold strip_prefix. destruct (String.prefix "http://" x) eqn:P; intros H1 H2.
- apply prefix_split in P. set (y := drop (String.length "http://") x) in *.
  rewrite P. rewrite (replace_absent "https://" "" ("http://" +:+ y)).
  + rewrite (replace_leading "h" "ttp://" y). now apply replace_absent.
  + now rewrite occurs_https_after_http.
- rewrite (replace_absent "https://" "" x H1). now apply replace_absent.
Qed.

(** Where nothing but a leading protocol has to go, removing every
    occurrence and stripping the leading ones come to the same. *)
Lemma replace_protocols_leading t :
  let rest := strip_prefix "http://" (strip_prefix "https://" t) in
  occurs "https://" rest = false ->
  occurs "http://" rest = false ->
  replace "http://" "" (replace "https://" "" t) = rest.
Proof.
cbv zeta. unfold strip_prefix at 2 4 6.
destruct (String.prefix "https://" t) eqn:P; intros H1 H2.
- apply prefix_split in P. set (y := drop (String.length "https://") t) in *.
  rewrite P, (replace_leading "h" "ttps://" y).
  now apply replace_protocols_leading_http.
- now apply replace_protocols_leading_http.
Qed.

Lemma with_suffix_endswith core : endswith (with_suffix core) SERVICE_SUFFIX = true.
Proof.
unfold with_suffix. destruct (endswith core SERVICE_SUFFIX) eqn:E; simpl.
- exact E.
- apply endswith_app.
Qed.

(** C6, as the code has it.  An empty domain raises [ValueError]; every
    other domain gives [https://{n}/api/v1], where the core of [n] is the
    trimmed input with every occurrence of ["https://"] and then of
    ["http://"] removed and the trailing slashes stripped, and [n] is the core
    followed by [".kaiten.ru"] exactly when the core does not end with it.
    Where stripping the leading protocols leaves no protocol marker behind,
    this is the URL of the specification. *)
Theorem get_base_url_normalizes (domain : string) :
  (domain = EmptyString ->
     exists e, get_base_url domain = Raise e /\ exn_type e = ValueError)
  /\ (domain <> EmptyString ->
      let core := rstrip_slash (replace "http://" "" (replace "https://" "" (strip domain))) in
      let n := with_suffix core in
      get_base_url domain = Return ("https://" +:+ n +:+ "/api/v1")
      /\ endswith core "/" = false
      /\ endswith n ".kaiten.ru" = true
      /\ (endswith core ".kaiten.ru" = true -> n = core)
      /\ (endswith core ".kaiten.ru" = false -> n = core +:+ ".kaiten.ru")
      /\ (let rest := strip_prefix "http://" (strip_prefix "https://" (strip domain)) in
          occurs "https://" rest = false -> occurs "http://" rest = false ->
          get_base_url domain = Return (spec_base_url domain))).
Proof.
split.
- intros ->. cbn. eauto.
- intros Hne. cbv zeta.
  assert (Hf : falsy domain = false) by (destruct domain; [congruence|reflexivity]).
  unfold get_base_url. rewrite Hf.
  split; [reflexivity|]. split; [apply rstrip_slash_no_trailing|].
  split; [apply with_suffix_endswith|].
  split; [|split].
  + unfold with_suffix, SERVICE_SUFFIX. now intros ->.
  + unfold with_suffix, SERVICE_SUFFIX. now intros ->.
  + intros H1 H2. unfold spec_base_url, spec_domain_core, domain_core.
    now rewrite (replace_protocols_leading (strip domain) H1 H2).
Qed.

(** C6 as stated fails where a protocol marker is not leading: the code
    removes it, stripping leading prefixes does not. *)
Lemma get_base_url_inner_protocol :
  get_base_url "ahttp://b" = Return "https://ab.kaiten.ru/api/v1"
  /\ spec_base_url "ahttp://b" = "https://ahttp://b.kaiten.ru/api/v1"
  /\ get_base_url "ahttp://b" <> Return (spec_base_url "ahttp://b").
Proof. repeat split. discriminate. Qed.

Example get_base_url_plain : get_base_url "mycompany" = Return "https://mycompany.kaiten.ru/api/v1".
Proof. reflexivity. Qed.

Example get_base_url_full :
  get_base_url "  https://mycompany.kaiten.ru// " = Return "https://mycompany.kaiten.ru/api/v1".
Proof. reflexivity. Qed.

Example get_base_url_blank : get_base_url "  " = Return "https://.kaiten.ru/api/v1".
Proof. reflexivity. Qed.

End ConfigFacts.

(** ** [models/base.py] *)

Module ObjectFacts.
Import KaitenObject.







(** Without the key, the [data] of a property is [None] and no dictionary. *)
Example property_data_absent :
  data (mk_obj Property 0 (Some 7%Z)) {[ 0 := {[ "id" := VInt 7 ]} ]}
  = Some (VNone, {[ 0 := {[ "id" := VInt 7 ]} ]}).
Proof. reflexivity. Qed.

Example init_card :
  __init__ Card 0 {[ 0 := {[ "id" := VInt 7; "title" := VStr "T" ]} ]}
  = Some (mk_obj Card 0 (Some 7%Z)).
Proof. reflexivity. Qed.

Example data_copy_then_mutate :
  let card := mk_obj Card 0 (Some 7%Z) in
  let h : heap := {[ 0 := {[ "id" := VInt 7; "title" := VStr "T" ]} ]} in
  match data card h with
  | Some (VRef l, h1) =>
      let h2 := mutate l [SetItem "title" (VStr "X"); DelItem "id"; SetItem "new" VNone] h1 in
      get card "title" VNone h2 = Some (VStr "T")
      /\ __contains__ card "new" h2 = Some false
      /\ __getitem__ card "id" h2 = Some (Return (VInt 7))
      /\ option_map (fun d : dict => d !! "title") (h2 !! l) = Some (Some (VStr "X"))
  | _ => False
  end.
Proof. vm_compute. repeat split. Qed.

Section Equality.

Variable hash_pair : class -> option Z -> Z.

(** C10. Two instances whose identifiers are [ia] and [ib] compare equal
    exactly when they are of the same class and [ia = ib], whatever else
    their data hold; equal instances have equal hashes; a value that is not
    a [KaitenObject] never compares equal; the comparison is reflexive and
    symmetric. *)
Theorem eq_by_class_and_id (a b : obj) (h : heap) (ia ib : option Z) :
  id a h = Some ia ->
  id b h = Some ib ->
  __eq__ a (Kaiten b) h = Some (bool_decide (cls a = cls b /\ ia = ib))
  /\ (__eq__ a (Kaiten b) h = Some true <-> cls a = cls b /\ ia = ib)
  /\ (forall h' : heap, id a h' = Some ia -> id b h' = Some ib ->
        __eq__ a (Kaiten b) h' = __eq__ a (Kaiten b) h)
  /\ (__eq__ a (Kaiten b) h = Some true ->
        __hash__ hash_pair a h = __hash__ hash_pair b h)
  /\ (forall v, __eq__ a (Foreign v) h = Some false)
  /\ __eq__ a (Kaiten a) h = Some true
  /\ __eq__ a (Kaiten b) h = __eq__ b (Kaiten a) h.
Proof.
intros Ha Hb.
assert (Hab : __eq__ a (Kaiten b) h = Some (bool_decide (cls a = cls b /\ ia = ib))).
{ unfold __eq__. rewrite Ha, Hb. f_equal.
  repeat case_bool_decide; simpl; try reflexivity; tauto. }
assert (Hiff : __eq__ a (Kaiten b) h = Some true <-> cls a = cls b /\ ia = ib).
{ rewrite Hab. split.
  - intros H. injection H as H. now apply bool_decide_eq_true in H.
  - intros H. f_equal. now apply bool_decide_eq_true. }
split; [exact Hab|]. split; [exact Hiff|].
split.
{ intros h' Ha' Hb'. unfold __eq__. now rewrite Ha, Hb, Ha', Hb'. }
split.
{ intros H. apply Hiff in H as [Hc Hi]. unfold __hash__.
  now rewrite Ha, Hb, Hc, Hi. }
split; [reflexivity|].
split.
{ unfold __eq__. rewrite Ha. f_equal. now rewrite !bool_decide_eq_true_2. }
unfold __eq__. rewrite Ha, Hb. f_equal.
repeat case_bool_decide; simpl; try reflexivity; congruence.
Qed.

End Equality.

(** Two cards with the identifier 7 and different titles, one of them
    taking part in every clause. *)
Lemma eq_by_class_and_id_witness :
  let a := mk_obj Card 0 (Some 7%Z) in
  let b := mk_obj Card 1 (Some 7%Z) in
  let h : heap := {[ 0 := {[ "id" := VInt 7; "title" := VStr "T" ]};
                     1 := {[ "id" := VInt 7; "title" := VStr "U" ]} ]} in
  __eq__ a (Kaiten b) h = Some true
  /\ __hash__ (fun _ i => default 0%Z i) a h = __hash__ (fun _ i => default 0%Z i) b h.
Proof.
intros a b h.
destruct (eq_by_class_and_id (fun _ i => default 0%Z i) a b h (Some 7%Z) (Some 7%Z)
            eq_refl eq_refl) as (_ & Hiff & _ & Hhash & _).
assert (E : __eq__ a (Kaiten b) h = Some true) by (apply Hiff; split; reflexivity).
split; [exact E|exact (Hhash E)].
Defined.

Example eq_other_class :
  __eq__ (mk_obj Card 0 (Some 7%Z)) (Kaiten (mk_obj Tag 0 (Some 7%Z))) ∅ = Some false.
Proof. reflexivity. Qed.

Example eq_checklist_reads_data :
  let h : heap := {[ 0 := {[ "id" := VInt 1 ]}; 1 := {[ "id" := VInt 2 ]} ]} in
  __eq__ (mk_obj Checklist 0 (Some 1%Z)) (Kaiten (mk_obj Checklist 1 (Some 1%Z))) h = Some false.
Proof. reflexivity. Qed.

End ObjectFacts.

(** ** The rate window *)

Module WindowFacts.
Import RateWindow.

Lemma Qltb_lt (x y : Q) : Qltb x y = true <-> (x < y)%Q.
Proof.
unfold Qltb. rewrite negb_true_iff. split.
- intros H. apply Qnot_le_lt. intros L. apply Qle_bool_iff in L. congruence.
- intros H. destruct (Qle_bool y x) eqn:E; [|reflexivity].
  apply Qle_bool_iff in E. exfalso. exact (Qlt_not_le _ _ H E).
Qed.

Lemma recent_spec (now t : Q) : recent now t = true <-> (now - t < 1)%Q.
Proof. apply Qltb_lt. Qed.

Lemma in_window_spec (T t : Q) : in_window T t = true <-> (t <= T)%Q /\ (T - t < 1)%Q.
Proof.
unfold in_window. now rewrite andb_true_iff, Qle_bool_iff, recent_spec.
Qed.

Lemma recent_self (now : Q) : recent now now = true.
Proof. apply recent_spec. lra. Qed.

(** A stamp recent at a later reading was recent at an earlier one. *)
Lemma recent_earlier (c now t : Q) : (c <= now)%Q -> recent now t = true -> recent c t = true.
Proof. rewrite !recent_spec. lra. Qed.

(** A stamp in the window ending at [T] is recent for a reading in that
    window. *)
Lemma in_window_recent (T now t : Q) :
  (now <= T)%Q -> in_window T t = true -> recent now t = true.
Proof. rewrite in_window_spec, recent_spec. lra. Qed.

Lemma filter_implied {A : Type} (f g : A -> bool) (l : list A) :
  (forall x, f x = true -> g x = true) ->
  List.filter f (List.filter g l) = List.filter f l.
Proof.
intros H. induction l as [|x l IH]; simpl; [reflexivity|].
destruct (g x) eqn:G; simpl.
- now rewrite IH.
- destruct (f x) eqn:F; [|exact IH]. apply H in F. congruence.
Qed.

Lemma filter_length_implied {A : Type} (f g : A -> bool) (l : list A) :
  (forall x, In x l -> f x = true -> g x = true) ->
  (length (List.filter f l) <= length (List.filter g l))%nat.
Proof.
induction l as [|x l IH]; intros H; simpl; [lia|].
assert (IH' := IH (fun y Hy => H y (or_intror Hy))).
destruct (f x) eqn:F.
- rewrite (H x (or_introl eq_refl) F). simpl. lia.
- destruct (g x); simpl; lia.
Qed.

Lemma filter_length_le {A : Type} (f : A -> bool) (l : list A) :
  (length (List.filter f l) <= length l)%nat.
Proof. induction l as [|x l IH]; simpl; [lia|]. destruct (f x); simpl; lia. Qed.

Lemma prune_later (c now : Q) (l : list Q) : (c <= now)%Q -> prune now (prune c l) = prune now l.
Proof. intros H. apply filter_implied. intros t. now apply recent_earlier. Qed.

Lemma prune_idem (now : Q) (l : list Q) : prune now (prune now l) = prune now l.
Proof. apply prune_later. lra. Qed.

Lemma prune_snoc (now : Q) (l : list Q) : prune now (l ++ [now]) = prune now l ++ [now].
Proof. unfold prune. rewrite List.filter_app. simpl. now rewrite recent_self. Qed.

(** What a pass does to the window. *)
Lemma pass_granted (limit : nat) (now : Q) (w : list Q) :
  snd (pass limit now w) = Granted ->
  (length (prune now w) < limit)%nat /\ fst (pass limit now w) = prune now w ++ [now].
Proof.
unfold pass. destruct (limit <=? length (prune now w))%nat eqn:E.
- destruct (minimum (prune now w)); simpl; [|discriminate].
  destruct (Qltb 0 _); discriminate.
- apply Nat.leb_gt in E. auto.
Qed.

Lemma pass_refused (limit : nat) (now : Q) (w : list Q) :
  snd (pass limit now w) <> Granted ->
  (limit <= length (prune now w))%nat /\ fst (pass limit now w) = prune now w.
Proof.
unfold pass. destruct (limit <=? length (prune now w))%nat eqn:E.
- apply Nat.leb_le in E. intros _. split; [exact E|].
  now destruct (minimum (prune now w)).
- simpl. congruence.
Qed.

Lemma consistent_empty (limit : nat) (c : Q) : consistent limit [] [] c.
Proof. split; [reflexivity|intros T; unfold count_in; simpl; lia|simpl; lia]. Qed.

Lemma consistent_later (limit : nat) (w h : list Q) (c now : Q) :
  (c <= now)%Q -> consistent limit w h c -> consistent limit w h now.
Proof.
intros Hc [Hs Hb Hl]. split; [|exact Hb|exact Hl].
now rewrite <- (prune_later c now w), <- (prune_later c now h), Hs.
Qed.

Lemma consistent_prune (limit : nat) (w h : list Q) (now : Q) :
  consistent limit w h now -> consistent limit (prune now w) h now.
Proof.
intros [Hs Hb Hl]. split; [now rewrite prune_idem|exact Hb|].
pose proof (filter_length_le (recent now) w). unfold prune. lia.
Qed.

Lemma minimum_in (w : list Q) (m : Q) : minimum w = Some m -> In m w.
Proof.
revert m. induction w as [|t w IH]; intros m; simpl; [discriminate|].
destruct (minimum w) as [m'|].
- intros [= <-]. destruct (Qltb m' t); [right; now apply IH|now left].
- intros [= <-]. now left.
Qed.

Lemma minimum_some (w : list Q) : w <> [] -> exists m, minimum w = Some m.
Proof.
destruct w as [|t w]; [congruence|]. intros _. simpl.
destruct (minimum w); eauto.
Qed.

Lemma filter_length_lt {A : Type} (f : A -> bool) (l : list A) (x : A) :
  In x l -> f x = false -> (length (List.filter f l) < length l)%nat.
Proof.
induction l as [|y l IH]; intros H F; simpl in *; [contradiction|].
destruct H as [->|H].
- rewrite F. pose proof (filter_length_le f l). lia.
- specialize (IH H F). destruct (f y); simpl; lia.
Qed.

(** Under a limit of at least one, a pass that does not let the call
    through makes it sleep for a positive time: [min] has an argument and
    the oldest stamp is less than a second old. *)
Lemma pass_waits (limit : nat) (now : Q) (w : list Q) :
  (1 <= limit)%nat ->
  snd (pass limit now w) = Granted
  \/ exists oldest,
       minimum (prune now w) = Some oldest
       /\ (0 < 1 - (now - oldest))%Q
       /\ pass limit now w = (prune now w, Wait (1 - (now - oldest))).
Proof.
intros Hl. unfold pass. destruct (limit <=? length (prune now w))%nat eqn:E; [|now left].
right. apply Nat.leb_le in E.
destruct (minimum_some (prune now w)) as [m Hm].
{ destruct (prune now w); [simpl in E; lia|discriminate]. }
exists m. rewrite Hm. split; [reflexivity|].
assert (Hpos : (0 < 1 - (now - m))%Q).
{ apply minimum_in in Hm. apply List.filter_In in Hm as [_ Hm].
  apply recent_spec in Hm. lra. }
split; [exact Hpos|]. apply Qltb_lt in Hpos. now rewrite Hpos.
Qed.

(** Once that time has passed, the oldest stamp at least is pruned. *)
Lemma wait_makes_room (now now' oldest : Q) (w : list Q) :
  minimum (prune now w) = Some oldest ->
  (now + (1 - (now - oldest)) <= now')%Q ->
  (length (prune now' (prune now w)) < length (prune now w))%nat.
Proof.
intros Hm Hlater. apply (filter_length_lt _ _ oldest); [now apply minimum_in|].
destruct (recent now' oldest) eqn:R; [|reflexivity].
apply recent_spec in R. lra.
Qed.

(** The step that matters: a reading is appended to a pruned window with
    room. *)
Lemma consistent_grant (limit : nat) (w h : list Q) (now : Q) :
  consistent limit w h now ->
  (length (prune now w) < limit)%nat ->
  consistent limit (prune now w ++ [now]) (h ++ [now]) now.
Proof.
intros [Hs Hb Hl] Hroom. split.
- now rewrite !prune_snoc, prune_idem, Hs.
- intros T. unfold count_in. rewrite List.filter_app, length_app. simpl.
  destruct (in_window T now) eqn:W; simpl; [|specialize (Hb T); unfold count_in in Hb; lia].
  apply in_window_spec in W as [W1 W2].
  assert (length (List.filter (in_window T) h) <= length (prune now h))%nat.
  { apply filter_length_implied. intros t _. now apply in_window_recent. }
  rewrite <- Hs in H. lia.
- rewrite length_app. simpl. lia.
Qed.

End WindowFacts.

(** ** [kaiten_client.py]: the URL and the classification of responses *)

Module RequestFacts.
Import PyStr KaitenClient.

Lemma append_cons (x : ascii) (a b : string) : String x a +:+ b = String x (a +:+ b).
Proof. reflexivity. Qed.

Lemma append_assoc (a b c : string) : (a +:+ b) +:+ c = a +:+ (b +:+ c).
Proof.
induction a as [|x a IH]; [reflexivity|]. now rewrite !append_cons, IH.
Qed.

Lemma append_empty (a : string) : a +:+ EmptyString = a.
Proof.
induction a as [|x a IH]; [reflexivity|]. now rewrite append_cons, IH.
Qed.

Lemma contains_append (ch : ascii) (a b : string) :
  contains ch (a +:+ b) = contains ch a || contains ch b.
Proof.
induction a as [|x a IH]; [reflexivity|].
rewrite append_cons. cbn [contains]. now rewrite IH, orb_assoc.
Qed.

(** Once a parameter is appended the URL has its question mark. *)
Lemma add_param_has_mark (url : string) (kv : string * pyval) :
  contains "?" (add_param url kv) = true.
Proof.
unfold add_param. rewrite contains_append.
destruct (contains "?" url) eqn:E; [reflexivity|].
now rewrite contains_append.
Qed.

Lemma fold_add_param (items : list (string * pyval)) (url : string) :
  fold_left add_param items url
  = url +:+ joined (if contains "?" url then "&" else "?") items.
Proof.
revert url. induction items as [|kv rest IH]; intros url; simpl.
- now rewrite append_empty.
- rewrite IH, add_param_has_mark. unfold add_param, pair_text.
  now rewrite !append_assoc.
Qed.

(** C7, as the code has it.  Every parameter of the map is appended, in
    order, literally as [key=str(value)]; each one after the first is
    preceded by ["&"], and the first by ["?"] when the URL built from the
    base URL and the endpoint has no ["?"] yet, by ["&"] when it has one.
    No map and an empty map append nothing. *)
Theorem build_url_query (url : string) (items : list (string * pyval)) :
  build_url url (Some items)
    = url +:+ joined (if contains "?" url then "&" else "?") items
  /\ build_url url None = url
  /\ build_url url (Some []) = url
  /\ (contains "?" url = false -> build_url url (Some items) = url +:+ spec_query items)
  /\ (contains "?" url = true -> build_url url (Some items) = url +:+ joined "&" items).
Proof.
unfold build_url, spec_query. rewrite fold_add_param.
repeat split; try reflexivity; now intros ->.
Qed.

Example build_url_two :
  build_url "https://co.kaiten.ru/api/v1/cards"
    (Some [("board_id", PInt 12); ("query", PStr "a b&c")])
  = "https://co.kaiten.ru/api/v1/cards?board_id=12&query=a b&c".
Proof. reflexivity. Qed.

Example build_url_none_value :
  build_url "u" (Some [("archived", PBool false); ("tag", PNone)]) = "u?archived=False&tag=None".
Proof. reflexivity. Qed.

(** C7 as stated fails on an endpoint that carries a query already: the
    first appended parameter follows ["&"], not ["?"]. *)
Lemma request_url_with_query_in_endpoint :
  let k := mk_call "GET" "/cards?archived=true" (Some [("limit", PInt 5)]) in
  let url := "https://co.kaiten.ru/api/v1/cards?archived=true&limit=5" in
  exists c c',
    __init__ "secret" "co" = Return c
    /\ step float_of_digits str_of_json_stub defaults (Clock 0) (Entry k) c
       = Some (Sending 1 k url, c', [EvRecord 0; EvSend 1 "GET" url])
    /\ url <> "https://co.kaiten.ru/api/v1" +:+ endpoint k +:+ spec_query [("limit", PInt 5)].
Proof.
simpl. eexists _, _. split; [reflexivity|]. split; [reflexivity|]. discriminate.
Qed.

(** A list of objects is wrapped element by element. *)
Lemma cards_of_objects (objs : list (gmap string json)) :
  cards_of (map JObject objs) = Return (map card_of objs).
Proof.
induction objs as [|fields rest IH]; [reflexivity|].
cbn [map cards_of Card]. now rewrite IH.
Qed.

Section Classification.

Variable float_of_str : string -> option Q.
Variable str_of_json : json -> string.
Variable cfg : settings.

Local Abbreviation step := (step float_of_str str_of_json cfg).

(** C5. An exchange answered with 204 ends the call with [None]; answered
    with another 2xx status and a body that decodes to a list, with that
    list, which the list endpoints use as it is; answered with another 2xx
    status and a body that decodes to an object, with that object, of which
    the list endpoints use the value under ["items"], or the empty list
    when there is none.  [get_space_users] returns what is used;
    [get_cards] returns its elements, where they are objects, as [Card]s in
    the same order. *)
Theorem classify_success (attempt : nat) (k : call) (url : string) (r : response) (c : client) :
  (status r = 204%Z ->
     step (Net (Ok r)) (Sending attempt k url) c = Some (Finished (Return JNull), c, []))
  /\ (forall items : list json,
        (200 <= status r < 300)%Z -> status r <> 204%Z -> json_body r = Ok (JList items) ->
        step (Net (Ok r)) (Sending attempt k url) c
          = Some (Finished (Return (JList items)), c, [])
        /\ items_of (JList items) = Return (JList items)
        /\ get_space_users (Return (JList items)) = Return (JList items)
        /\ (forall objs, items = map JObject objs ->
              get_cards (Return (JList items)) = Return (map card_of objs)))
  /\ (forall fields : gmap string json,
        (200 <= status r < 300)%Z -> status r <> 204%Z -> json_body r = Ok (JObject fields) ->
        step (Net (Ok r)) (Sending attempt k url) c
          = Some (Finished (Return (JObject fields)), c, [])
        /\ (forall v, fields !! "items" = Some v ->
              items_of (JObject fields) = Return v
              /\ get_space_users (Return (JObject fields)) = Return v
              /\ (forall objs, v = JList (map JObject objs) ->
                    get_cards (Return (JObject fields)) = Return (map card_of objs)))
        /\ (fields !! "items" = None ->
              items_of (JObject fields) = Return (JList [])
              /\ get_space_users (Return (JObject fields)) = Return (JList [])
              /\ get_cards (Return (JObject fields)) = Return [])).
Proof.
assert (H2xx : forall v, (200 <= status r < 300)%Z -> status r <> 204%Z ->
          json_body r = Ok v ->
          step (Net (Ok r)) (Sending attempt k url) c = Some (Finished (Return v), c, [])).
{ intros v Hr Hn Hb. cbn [KaitenClient.step]. unfold classify.
  destruct (status r =? 429)%Z eqn:E1; [lia|].
  destruct (status r =? 404)%Z eqn:E2; [lia|].
  destruct (status r =? 422)%Z eqn:E3; [lia|].
  destruct (400 <=? status r)%Z eqn:E4; [lia|].
  destruct (status r =? 204)%Z eqn:E5; [lia|].
  now rewrite Hb. }
split; [|split].
- intros H. cbn [KaitenClient.step]. unfold classify. now rewrite H.
- intros items Hr Hn Hb. split; [now apply H2xx|].
  split; [reflexivity|]. split; [reflexivity|].
  intros objs ->. cbn [get_cards items_of iterate]. apply cards_of_objects.
- intros fields Hr Hn Hb. split; [now apply H2xx|]. split.
  + intros v Hv. cbn [get_space_users get_cards items_of]. rewrite Hv.
    split; [reflexivity|]. split; [reflexivity|].
    intros objs ->. cbn [iterate]. apply cards_of_objects.
  + intros Hv. cbn [get_space_users get_cards items_of]. rewrite Hv.
    repeat split.
Qed.

End Classification.

Example classify_204 :
  step float_of_digits str_of_json_stub defaults
    (Net (Ok (mk_response 204 None (OtherError "no body") (Ok ""))))
    (Sending 1 (delete_card_call 5) "u") (mk_client "t" "d" true [] (KaitenCredentials.mk "d" "t") true)
  = Some (Finished (Return JNull), mk_client "t" "d" true [] (KaitenCredentials.mk "d" "t") true, []).
Proof. reflexivity. Qed.

Example envelope_items :
  let one : gmap string json := {[ "id" := JInt 1; "title" := JStr "a" ]} in
  let two : gmap string json := {[ "title" := JStr "b" ]} in
  get_space_users (Return (JObject {[ "items" := JList [JInt 1; JInt 2]; "total" := JInt 2 ]}))
  = Return (JList [JInt 1; JInt 2])
  /\ get_space_users (Return (JObject {[ "total" := JInt 0 ]})) = Return (JList [])
  /\ get_space_users (Return (JList [JInt 3])) = Return (JList [JInt 3])
  /\ get_cards (Return (JObject {[ "items" := JList [JObject one; JObject two] ]}))
     = Return [mk_card one (JInt 1); mk_card two JNull]
  /\ get_cards (Return (JObject {[ "total" := JInt 0 ]})) = Return []
  /\ get_cards (Return (JObject {[ "items" := JList [JInt 1; JInt 2] ]}))
     = Raise (mk_exn AttributeError "'int' object has no attribute 'get'" None).
Proof. vm_compute. repeat split. Qed.

End RequestFacts.

(** ** [kaiten_client.py]: one call from start to end *)

Module CallFacts.
Import PyStr KaitenClient.

Lemma sends_app (a b : list event) : sends (a ++ b) = sends a ++ sends b.
Proof.
induction a as [|e a IH]; simpl; [reflexivity|]. destruct e; simpl; now rewrite IH.
Qed.

Lemma recorded_app (a b : list event) : recorded (a ++ b) = recorded a ++ recorded b.
Proof.
induction a as [|e a IH]; simpl; [reflexivity|]. destruct e; simpl; now rewrite IH.
Qed.

Lemma sleeps_app (a b : list event) : sleeps (a ++ b) = sleeps a ++ sleeps b.
Proof.
induction a as [|e a IH]; simpl; [reflexivity|]. destruct e; simpl; now rewrite IH.
Qed.

Section Call.

Variable float_of_str : string -> option Q.
Variable str_of_json : json -> string.
Variable cfg : settings.

Local Abbreviation step := (step float_of_str str_of_json cfg).
Local Abbreviation _request := (_request float_of_str str_of_json cfg).
Local Abbreviation shaped := (well_shaped (MAX_RETRIES cfg)).

Lemma run_app (pre post : list input) (t : task) (c : client) :
  _request (pre ++ post) t c
  = match _request pre t c with
    | None => None
    | Some (t1, c1, e1) =>
        match _request post t1 c1 with
        | None => None
        | Some (t2, c2, e2) => Some (t2, c2, e1 ++ e2)
        end
    end.
Proof.
revert t c. induction pre as [|i pre IH]; intros t c; simpl.
- destruct (_request post t c) as [[[t2 c2] e2]|]; reflexivity.
- destruct (step i t c) as [[[t1 c1] e1]|]; [|reflexivity].
  rewrite IH. destruct (_request pre t1 c1) as [[[t2 c2] e2]|]; [|reflexivity].
  destruct (_request post t2 c2) as [[[t3 c3] e3]|]; [|reflexivity].
  now rewrite app_assoc.
Qed.

Ltac shape_finish :=
  cbn [well_shaped]; rewrite ?sends_app, ?recorded_app, ?length_app; cbn [sends recorded length];
  rewrite ?app_nil_r.

Lemma shaped_finished (k : call) (r : result json) (n : nat) (evs : list event) :
  sends evs = seq 1 n -> (length (recorded evs) <= 1)%nat -> (n <= MAX_RETRIES cfg)%nat ->
  shaped k (Finished r) evs.
Proof. intros Hs Hr Hn. split; [exact Hr|]. now exists n. Qed.

Lemma shaped_start (k : call) (url : string) (n : nat) (evs : list event) :
  sends evs = seq 1 n -> length (recorded evs) = 1%nat -> (n <= MAX_RETRIES cfg)%nat ->
  shaped k (fst (start_attempt cfg (S n) k url)) (evs ++ snd (start_attempt cfg (S n) k url)).
Proof.
intros Hs Hr Hn. unfold start_attempt.
destruct (S n <=? MAX_RETRIES cfg)%nat eqn:E; cbn [fst snd].
- apply Nat.leb_le in E. shape_finish. rewrite Hs, Hr, seq_S. repeat split; lia.
- rewrite app_nil_r. apply (shaped_finished k _ n); trivial. lia.
Qed.

Lemma shaped_client_error (k : call) (url e : string) (n : nat) (evs : list event) :
  shaped k (Sending n k url) evs ->
  shaped k (fst (on_client_error cfg n k url e)) (evs ++ snd (on_client_error cfg n k url e)).
Proof.
intros (_ & Hs & Hr & Hn). unfold on_client_error.
destruct (n <? MAX_RETRIES cfg)%nat eqn:E; cbn [fst snd].
- apply Nat.ltb_lt in E. shape_finish. repeat split; try assumption; lia.
- rewrite app_nil_r. apply (shaped_finished k _ n); trivial; lia.
Qed.

Lemma shaped_with_body {A : Type} (k : call) (url : string) (n : nat) (evs : list event)
    (body : io A) (cont : A -> result json) :
  shaped k (Sending n k url) evs ->
  shaped k (fst (with_body cfg n k url body cont)) (evs ++ snd (with_body cfg n k url body cont)).
Proof.
intros H. destruct body as [a|e|e]; cbn [with_body].
- destruct H as (_ & Hs & Hr & Hn). cbn [fst snd]. rewrite app_nil_r.
  apply (shaped_finished k _ n); trivial; lia.
- now apply shaped_client_error.
- destruct H as (_ & Hs & Hr & Hn). cbn [fst snd]. rewrite app_nil_r.
  apply (shaped_finished k _ n); trivial; lia.
Qed.

Lemma shaped_classify (k : call) (url : string) (n : nat) (evs : list event) (r : response) :
  shaped k (Sending n k url) evs ->
  shaped k (fst (classify float_of_str str_of_json cfg n k url r))
    (evs ++ snd (classify float_of_str str_of_json cfg n k url r)).
Proof.
intros H. pose proof H as (_ & Hs & Hr & Hn). unfold classify.
destruct (status r =? 429)%Z.
{ cbn [fst snd]. shape_finish. repeat split; try assumption; lia. }
destruct (status r =? 404)%Z.
{ cbn [fst snd]. rewrite app_nil_r. apply (shaped_finished k _ n); trivial; lia. }
destruct (status r =? 422)%Z; [now apply shaped_with_body|].
destruct (400 <=? status r)%Z; [now apply shaped_with_body|].
destruct (status r =? 204)%Z; [|now apply shaped_with_body].
cbn [fst snd]. rewrite app_nil_r. apply (shaped_finished k _ n); trivial; lia.
Qed.

Lemma shaped_acquire (k : call) (b : bool) (now : Q) (c : client) (evs : list event) :
  sends evs = [] -> recorded evs = [] ->
  shaped k (fst (fst (acquire cfg b now k c))) (evs ++ snd (acquire cfg b now k c)).
Proof.
intros Hs Hr. unfold acquire.
destruct (b && negb (session (if b then initialize c else c))).
{ cbn [fst snd]. rewrite app_nil_r. apply (shaped_finished k _ 0); trivial; [rewrite Hr; simpl; lia|lia]. }
destruct (RateWindow.pass _ _ _) as [w v].
destruct v as [|d| |]; cbn [fst snd].
- destruct (KaitenConfig.get_base_url _) as [base|err]; cbn [fst snd].
  + pose proof (shaped_start k (build_url (base +:+ endpoint k) (params k)) 0
                  (evs ++ [EvRecord now])) as P.
    destruct (start_attempt cfg 1 k _) as [t1 e1]. cbn [fst snd] in *.
    change (EvRecord now :: e1) with ([EvRecord now] ++ e1). rewrite app_assoc.
    apply P; [now rewrite sends_app, Hs|now rewrite recorded_app, Hr|lia].
  + apply (shaped_finished k _ 0); [now rewrite sends_app, Hs| |lia].
    rewrite recorded_app, Hr. simpl. lia.
- shape_finish. auto.
- shape_finish. auto.
- rewrite app_nil_r. apply (shaped_finished k _ 0); trivial; [rewrite Hr; simpl; lia|lia].
Qed.

(** One step keeps the events of a call in shape. *)
Lemma step_shaped (k : call) (i : input) (t t' : task) (c c' : client) (evs e : list event) :
  shaped k t evs -> step i t c = Some (t', c', e) -> shaped k t' (evs ++ e).
Proof.
intros H St. destruct t as [k'|k'|n k' url|n k' url|n k' url|r]; destruct i as [now|o|];
  try discriminate St; cbn [KaitenClient.step] in St.
- destruct H as (-> & Hs & Hr). pose proof (shaped_acquire k true now c evs Hs Hr) as P.
  destruct (acquire cfg true now k c) as [[t1 c1] e1]. now injection St as <- <- <-.
- destruct H as (-> & Hs & Hr). pose proof (shaped_acquire k false now c evs Hs Hr) as P.
  destruct (acquire cfg false now k c) as [[t1 c1] e1]. now injection St as <- <- <-.
- pose proof H as (-> & Hs & Hr & Hn). destruct o as [r|err|err].
  + pose proof (shaped_classify k url n evs r H) as P.
    destruct (classify _ _ _ _ _ _ _) as [t1 e1]. now injection St as <- <- <-.
  + pose proof (shaped_client_error k url err n evs H) as P.
    destruct (on_client_error _ _ _ _ _) as [t1 e1]. now injection St as <- <- <-.
  + injection St as <- <- <-. rewrite app_nil_r.
    apply (shaped_finished k _ n); trivial; lia.
- destruct H as (-> & Hs & Hr & Hn).
  destruct (n <? MAX_RETRIES cfg)%nat eqn:E.
  + pose proof (shaped_start k url n (evs ++ [EvClear])) as P.
    destruct (start_attempt cfg (S n) k url) as [t1 e1]. injection St as <- <- <-.
    change (EvClear :: e1) with ([EvClear] ++ e1). rewrite app_assoc.
    apply P; [rewrite sends_app, Hs; apply app_nil_r|rewrite recorded_app, length_app, Hr; reflexivity|lia].
  + injection St as <- <- <-.
    apply (shaped_finished k _ n); [rewrite sends_app, Hs; apply app_nil_r| |lia].
    rewrite recorded_app, length_app, Hr. simpl. lia.
- destruct H as (-> & Hs & Hr & Hn).
  pose proof (shaped_start k url n evs Hs Hr) as P.
  destruct (start_attempt cfg (S n) k url) as [t1 e1]. injection St as <- <- <-.
  apply P. lia.
Qed.

(** However a call is resumed, it records one timestamp at most, exactly
    one once an exchange is sent, and its attempts are numbered [1 .. n]
    with [n] within the budget. *)
Lemma run_shaped (k : call) (inputs : list input) (t t' : task) (c c' : client)
    (evs e : list event) :
  shaped k t evs -> _request inputs t c = Some (t', c', e) -> shaped k t' (evs ++ e).
Proof.
revert t c evs e. induction inputs as [|i rest IH]; intros t c evs e H R; simpl in R.
- injection R as <- <- <-. now rewrite app_nil_r.
- destruct (step i t c) as [[[t1 c1] e1]|] eqn:St; [|discriminate R].
  destruct (KaitenClient._request _ _ _ rest t1 c1) as [[[t2 c2] e2]|] eqn:R'; [|discriminate R].
  injection R as <- <- <-. rewrite app_assoc.
  eapply IH; [|exact R']. eapply step_shaped; eassumption.
Qed.

Lemma run_from_entry (k : call) (inputs : list input) (t' : task) (c c' : client) (e : list event) :
  _request inputs (Entry k) c = Some (t', c', e) -> shaped k t' e.
Proof.
intros R. change e with ([] ++ e). eapply run_shaped; [|exact R].
cbn. auto.
Qed.

(** C4, as the code has it.  A response with status 404 ends the call at
    once with a [KaitenNotFoundError] whose message names the endpoint:
    nothing is sent and nothing is slept after it, so the exchange it
    answers is the last of the call.  When it answers exchange [m], the
    call has sent exchanges [1 .. m]: one when it answers the first.
    [delete_card] passes the error on and does not return [True]. *)
Theorem not_found_is_final (n : nat) (k : call) (url : string) (r : response) (c : client) :
  status r = 404%Z ->
  let failure := mkKaitenNotFoundError ("Resource not found: " +:+ endpoint k) in
  step (Net (Ok r)) (Sending n k url) c = Some (Finished (Raise failure), c, [])
  /\ (forall (pre : list input) (c0 : client) (evs0 : list event),
        _request pre (Entry k) c0 = Some (Sending 1 k url, c, evs0) ->
        _request (pre ++ [Net (Ok r)]) (Entry k) c0 = Some (Finished (Raise failure), c, evs0)
        /\ sends evs0 = [1%nat])
  /\ (forall (m : nat) (pre : list input) (c0 : client) (evs0 : list event),
        _request pre (Entry k) c0 = Some (Sending m k url, c, evs0) ->
        _request (pre ++ [Net (Ok r)]) (Entry k) c0 = Some (Finished (Raise failure), c, evs0)
        /\ sends evs0 = seq 1 m /\ (1 <= m <= MAX_RETRIES cfg)%nat)
  /\ exn_type failure = KaitenNotFoundError
  /\ status_code failure = Some 404%Z
  /\ (forall card_id, k = delete_card_call card_id ->
        message failure = "Resource not found: /cards/" +:+ str_int card_id)
  /\ delete_card (Raise failure) = Raise failure
  /\ delete_card (Raise failure) <> Return true.
Proof.
intros H failure.
assert (Hstep : forall m,
          step (Net (Ok r)) (Sending m k url) c = Some (Finished (Raise failure), c, [])).
{ intros m. cbn [KaitenClient.step]. unfold classify. now rewrite H. }
assert (Hrun : forall m pre c0 evs0,
          _request pre (Entry k) c0 = Some (Sending m k url, c, evs0) ->
          _request (pre ++ [Net (Ok r)]) (Entry k) c0 = Some (Finished (Raise failure), c, evs0)
          /\ sends evs0 = seq 1 m /\ (1 <= m <= MAX_RETRIES cfg)%nat).
{ intros m pre c0 evs0 Hpre. split.
  - rewrite run_app, Hpre. cbn [KaitenClient._request]. rewrite Hstep. now rewrite app_nil_r.
  - destruct (run_from_entry k pre _ c0 c evs0 Hpre) as (_ & Hs & _ & Hm). now split. }
split; [apply Hstep|]. split.
{ intros pre c0 evs0 Hpre. destruct (Hrun 1%nat pre c0 evs0 Hpre) as (Hr & Hs & _).
  now split. }
split; [exact Hrun|].
repeat split; try reflexivity; try discriminate.
now intros card_id ->.
Qed.

(** C3, as the code has it.  A response with status 429 makes the call
    sleep for the value of [Retry-After] as [float] reads it, or for 1.0
    when [float] rejects it or the header is absent (the default ["1"]).
    On waking the shared window is emptied before anything else; then the
    next exchange is sent when attempts remain, and otherwise the call
    raises the plain [KaitenApiError] "Rate limit exceeded after N
    retries". *)
Theorem rate_limited_backs_off (n : nat) (k : call) (url : string) (r : response) (c : client) :
  status r = 429%Z ->
  step (Net (Ok r)) (Sending n k url) c
    = Some (Backoff429 n k url, c, [EvSleep (retry_delay_of float_of_str r)])
  /\ (forall s q, retry_after r = Some s -> float_of_str s = Some q ->
        retry_delay_of float_of_str r = q)
  /\ (forall s, retry_after r = Some s -> float_of_str s = None ->
        retry_delay_of float_of_str r = 1%Q)
  /\ (retry_after r = None -> float_of_str "1" = Some 1%Q ->
        retry_delay_of float_of_str r = 1%Q)
  /\ (forall c' : client, exists (t' : task) (evs : list event),
        step Wake (Backoff429 n k url) c' = Some (t', set_request_times c' [], EvClear :: evs)
        /\ _request_times (set_request_times c' []) = []
        /\ ((n < MAX_RETRIES cfg)%nat ->
              t' = Sending (S n) k url /\ evs = [EvSend (S n) (method k) url])
        /\ ((MAX_RETRIES cfg <= n)%nat ->
              evs = []
              /\ t' = Finished (Raise (mkKaitenApiError
                        ("Rate limit exceeded after "
                         +:+ str_int (Z.of_nat (MAX_RETRIES cfg)) +:+ " retries"))))).
Proof.
intros H. split.
{ cbn [KaitenClient.step]. unfold classify. now rewrite H. }
unfold retry_delay_of.
split; [now intros s q -> ->|]. split; [now intros s -> ->|]. split; [now intros -> ->|].
intros c'. cbn [KaitenClient.step]. unfold start_attempt.
destruct (n <? MAX_RETRIES cfg)%nat eqn:E.
- apply Nat.ltb_lt in E.
  assert ((S n <=? MAX_RETRIES cfg)%nat = true) as -> by (apply Nat.leb_le; lia).
  eexists _, _. split; [reflexivity|]. split; [reflexivity|].
  split; [auto|intros; lia].
- apply Nat.ltb_ge in E.
  eexists _, _. split; [reflexivity|]. split; [reflexivity|].
  split; [intros; lia|auto].
Qed.

(** C2, as the code has it.  Under a budget of three attempts, a call
    whose every exchange raises [aiohttp.ClientError] sends exactly three
    exchanges, sleeps [RETRY_DELAY] after the first and after the second,
    and ends with the plain [KaitenApiError] "HTTP client error after 3
    retries: ..." carrying the text of the last error.  The limiter is
    passed once, before the first exchange: the call records one timestamp
    and no retry records another. *)
Theorem client_errors_exhaust_retries (k : call) (pre : list input) (c0 c : client)
    (url : string) (evs0 : list event) (e1 e2 e3 : string) :
  MAX_RETRIES cfg = 3%nat ->
  _request pre (Entry k) c0 = Some (Sending 1 k url, c, evs0) ->
  let failure := mkKaitenApiError ("HTTP client error after 3 retries: " +:+ e3) in
  let evs := evs0 ++ [EvSleep (RETRY_DELAY cfg); EvSend 2 (method k) url;
                      EvSleep (RETRY_DELAY cfg); EvSend 3 (method k) url] in
  _request (pre ++ [Net (ClientError e1); Wake; Net (ClientError e2); Wake; Net (ClientError e3)])
      (Entry k) c0
    = Some (Finished (Raise failure), c, evs)
  /\ sends evs = [1; 2; 3]%nat
  /\ length (recorded evs) = 1%nat
  /\ recorded evs = recorded evs0
  /\ sleeps evs = sleeps evs0 ++ [RETRY_DELAY cfg; RETRY_DELAY cfg]
  /\ exn_type failure = KaitenApiError
  /\ status_code failure = None.
Proof.
intros Hmax Hpre failure evs.
destruct (run_from_entry k pre _ c0 c evs0 Hpre) as (_ & Hs & Hr & _).
split.
{ rewrite run_app, Hpre. subst failure evs. clear Hpre Hs Hr.
  destruct cfg as [limit retries delay]. cbn [MAX_RETRIES] in Hmax. subst retries.
  reflexivity. }
subst evs. rewrite sends_app, recorded_app, sleeps_app, Hs, length_app, Hr.
cbn [sends recorded sleeps length]. rewrite app_nil_r.
repeat split; reflexivity.
Qed.

End Call.

(** *** The calls on a concrete session *)

Example demo_client_init : __init__ "secret" " co " = Return (mk_client "secret" " co " false [] (KaitenCredentials.mk "co" "secret") false).
Proof. reflexivity. Qed.

(** Deleting card 5 twice: the second call is answered with 404. *)
Lemma not_found_is_final_witness :
  let r := mk_response 404 None (ClientError "unexpected mimetype") (Ok "Not Found") in
  exists (c : client) (evs : list event),
    demo_run [Clock 0; Net (Ok r)] (Entry (delete_card_call 5)) demo_client
      = Some (Finished (Raise (mkKaitenNotFoundError "Resource not found: /cards/5")), c, evs)
    /\ sends evs = [1%nat].
Proof.
intros r.
pose (url := "https://co.kaiten.ru/api/v1/cards/5").
pose (c := mk_client "secret" "co" true [0%Q] (KaitenCredentials.mk "co" "secret") true).
pose (evs := [EvRecord 0; EvSend 1 "DELETE" url]).
destruct (not_found_is_final float_of_digits str_of_json_stub defaults 1
            (delete_card_call 5) url r c eq_refl) as (_ & H & _).
exists c, evs. exact (H [Clock 0] demo_client evs eq_refl).
Defined.

(** C4 as stated fails in "exactly one transport attempt": a transport
    error on the first exchange is retried after the base delay, and the 404
    that answers the second exchange ends a call of two attempts. *)
Lemma not_found_after_a_retry :
  let r := mk_response 404 None (ClientError "unexpected mimetype") (Ok "Not Found") in
  match demo_run [Clock 2; Net (ClientError "Connection reset by peer"); Wake; Net (Ok r)]
          (Entry (delete_card_call 5)) demo_client with
  | Some (Finished (Raise e), _, evs) =>
      e = mkKaitenNotFoundError "Resource not found: /cards/5"
      /\ sends evs = [1; 2]%nat
      /\ sleeps evs = [1%Q]
      /\ length (sends evs) <> 1%nat
  | _ => False
  end.
Proof. vm_compute. repeat split. discriminate. Qed.

(** A 429 that asks for two seconds, on the second attempt of three. *)
Lemma rate_limited_backs_off_witness :
  let k := mk_call "GET" "/cards" None in
  let r := mk_response 429 (Some "2") (ClientError "unexpected mimetype") (Ok "") in
  let c := mk_client "secret" "co" true [0%Q] (KaitenCredentials.mk "co" "secret") true in
  step float_of_digits str_of_json_stub defaults (Net (Ok r)) (Sending 2 k "u") c
    = Some (Backoff429 2 k "u", c, [EvSleep 2]).
Proof.
intros k r c.
exact (proj1 (rate_limited_backs_off float_of_digits str_of_json_stub defaults 2 k "u" r c eq_refl)).
Defined.

(** C3 as stated fails in its last clause: when the third attempt is
    answered with 429 too, what is raised is a [KaitenApiError] with no
    status code, not a [KaitenRateLimitError]. *)
Lemma rate_limit_exhausted_raises_api_error :
  let r := mk_response 429 None (ClientError "unexpected mimetype") (Ok "") in
  match demo_run [Clock 0; Net (Ok r); Wake; Net (Ok r); Wake; Net (Ok r); Wake]
          (Entry (mk_call "GET" "/cards" None)) demo_client with
  | Some (Finished (Raise e), c, evs) =>
      e = mkKaitenApiError "Rate limit exceeded after 3 retries"
      /\ exn_type e <> KaitenRateLimitError
      /\ status_code e = None
      /\ _request_times c = []
      /\ sleeps evs = [1%Q; 1%Q; 1%Q]
  | _ => False
  end.
Proof. vm_compute. repeat split; discriminate. Qed.

(** The three exchanges of a GET on [/cards] all fail to connect. *)
Lemma client_errors_exhaust_retries_witness :
  let k := mk_call "GET" "/cards" None in
  let url := "https://co.kaiten.ru/api/v1/cards" in
  exists c : client,
    demo_run [Clock 0; Net (ClientError "refused"); Wake; Net (ClientError "reset"); Wake;
              Net (ClientError "timed out")] (Entry k) demo_client
    = Some (Finished (Raise (mkKaitenApiError "HTTP client error after 3 retries: timed out")),
            c,
            [EvRecord 0; EvSend 1 "GET" url; EvSleep 1; EvSend 2 "GET" url;
             EvSleep 1; EvSend 3 "GET" url]).
Proof.
intros k url.
pose (c := mk_client "secret" "co" true [0%Q] (KaitenCredentials.mk "co" "secret") true).
exists c.
exact (proj1 (client_errors_exhaust_retries float_of_digits str_of_json_stub defaults
                k [Clock 0] demo_client c url [EvRecord 0; EvSend 1 "GET" url]
                "refused" "reset" "timed out" eq_refl eq_refl)).
Defined.

(** C2 as stated fails in two clauses: the three attempts share one
    acquisition of the limiter (one timestamp is recorded, not three), and
    what is raised is a [KaitenApiError], not a [KaitenConnectionError]. *)
Lemma client_errors_one_acquisition_api_error :
  match demo_run [Clock 0; Net (ClientError "refused"); Wake; Net (ClientError "refused"); Wake;
                  Net (ClientError "refused")]
          (Entry (mk_call "GET" "/cards" None)) demo_client with
  | Some (Finished (Raise e), c, evs) =>
      sends evs = [1; 2; 3]%nat
      /\ recorded evs = [0%Q]
      /\ length (recorded evs) <> length (sends evs)
      /\ exn_type e = KaitenApiError
      /\ exn_type e <> KaitenConnectionError
  | _ => False
  end.
Proof. vm_compute. repeat split; discriminate. Qed.

End CallFacts.

(** ** [kaiten_client.py]: concurrent calls and the rate window *)

Module SessionFacts.
Import RateWindow WindowFacts KaitenClient.

Lemma since_clear_app (before : list Q) (e1 e2 : list event) :
  since_clear before (e1 ++ e2) = since_clear (since_clear before e1) e2.
Proof.
revert before. induction e1 as [|e e1 IH]; intros before; simpl; [reflexivity|].
destruct e; apply IH.
Qed.

(** Without a clearing, the stamps since the last one are all of them. *)
Lemma since_clear_recorded (before : list Q) (evs : list event) :
  ~ In EvClear evs -> since_clear before evs = before ++ recorded evs.
Proof.
revert before. induction evs as [|e evs IH]; intros before H; simpl.
- now rewrite app_nil_r.
- assert (H' : ~ In EvClear evs) by (intros F; apply H; now right).
  destruct e; try (now apply IH).
  + rewrite IH by exact H'. now rewrite <- app_assoc.
  + exfalso. apply H. now left.
Qed.

Section Session.

Variable float_of_str : string -> option Q.
Variable str_of_json : json -> string.
Variable cfg : settings.

Local Abbreviation step := (step float_of_str str_of_json cfg).
Local Abbreviation exec1 := (exec1 float_of_str str_of_json cfg).
Local Abbreviation exec := (exec float_of_str str_of_json cfg).
Local Abbreviation limit := (LIMIT_PER_SEC cfg).

Lemma inert_start (n : nat) (k : call) (url : string) : inert (snd (start_attempt cfg n k url)).
Proof. unfold start_attempt. now destruct (n <=? MAX_RETRIES cfg)%nat. Qed.

Lemma inert_client_error (n : nat) (k : call) (url e : string) :
  inert (snd (on_client_error cfg n k url e)).
Proof. unfold on_client_error. now destruct (n <? MAX_RETRIES cfg)%nat. Qed.

Lemma inert_with_body {A : Type} (n : nat) (k : call) (url : string) (body : io A)
    (cont : A -> result json) :
  inert (snd (with_body cfg n k url body cont)).
Proof. destruct body; simpl; [easy|apply inert_client_error|easy]. Qed.

Lemma inert_classify (n : nat) (k : call) (url : string) (r : response) :
  inert (snd (classify float_of_str str_of_json cfg n k url r)).
Proof.
unfold classify.
repeat match goal with
       | |- context [if ?b then _ else _] => destruct b
       end; try apply inert_with_body; easy.
Qed.

(** What a step can do to the window and to the stamps recorded since
    the last clearing: nothing; prune the window at the reading; prune it
    and append the reading, where the pruned window has room; empty both. *)
Lemma step_effect (i : input) (t t' : task) (c c' : client) (e : list event) :
  step i t c = Some (t', c', e) ->
  (_request_times c' = _request_times c /\ inert e)
  \/ (exists now, i = Clock now
        /\ _request_times c' = prune now (_request_times c) /\ inert e)
  \/ (exists now, i = Clock now
        /\ (length (prune now (_request_times c)) < limit)%nat
        /\ _request_times c' = prune now (_request_times c) ++ [now]
        /\ forall before, since_clear before e = before ++ [now])
  \/ (_request_times c' = [] /\ forall before, since_clear before e = []).
Proof.
assert (Hacq : forall b now k, 
          acquire cfg b now k c = (t', c', e) ->
          (_request_times c' = _request_times c /\ inert e)
          \/ (_request_times c' = prune now (_request_times c) /\ inert e)
          \/ ((length (prune now (_request_times c)) < limit)%nat
              /\ _request_times c' = prune now (_request_times c) ++ [now]
              /\ forall before, since_clear before e = before ++ [now])).
{ intros b now k. unfold acquire.
  set (c1 := if b then initialize c else c).
  assert (Hw : _request_times c1 = _request_times c).
  { subst c1. destruct b; [|reflexivity]. unfold initialize.
    now destruct (negb (_is_initialized c)). }
  destruct (b && negb (session c1)).
  { intros [= <- <- <-]. left. now rewrite Hw. }
  rewrite Hw.
  destruct (pass limit now (_request_times c)) as [w v] eqn:P.
  assert (Pw : fst (pass limit now (_request_times c)) = w) by now rewrite P.
  assert (Pv : snd (pass limit now (_request_times c)) = v) by now rewrite P.
  destruct v as [|d| |]; intros H.
  - destruct (pass_granted _ _ _ Pv) as [Hroom Hfst]. rewrite Pw in Hfst.
    right. right.
    destruct (KaitenConfig.get_base_url _) as [base|err].
    + pose proof (inert_start 1 k (build_url (base +:+ endpoint k) (params k))) as I.
      destruct (start_attempt cfg 1 k _) as [t1 e1]. injection H as <- <- <-.
      split; [exact Hroom|]. split; [exact Hfst|].
      intros before. cbn [since_clear]. apply I.
    + injection H as <- <- <-. split; [exact Hroom|]. split; [exact Hfst|]. reflexivity.
  - injection H as <- <- <-. right. left.
    destruct (pass_refused limit now (_request_times c)) as [_ Hfst]; [congruence|].
    rewrite Pw in Hfst. now split.
  - injection H as <- <- <-. right. left.
    destruct (pass_refused limit now (_request_times c)) as [_ Hfst]; [congruence|].
    rewrite Pw in Hfst. now split.
  - injection H as <- <- <-. right. left.
    destruct (pass_refused limit now (_request_times c)) as [_ Hfst]; [congruence|].
    rewrite Pw in Hfst. now split. }
intros St.
destruct t as [k|k|n k url|n k url|n k url|r]; destruct i as [now|o|];
  try discriminate St; cbn [KaitenClient.step] in St.
- injection St as St. destruct (Hacq _ _ _ St) as [H|[H|H]]; eauto 10.
- injection St as St. destruct (Hacq _ _ _ St) as [H|[H|H]]; eauto 10.
- left. destruct o as [r|err|err].
  + pose proof (inert_classify n k url r) as I.
    destruct (classify _ _ _ _ _ _ _) as [t1 e1]. now injection St as <- <- <-.
  + pose proof (inert_client_error n k url err) as I.
    destruct (on_client_error _ _ _ _ _) as [t1 e1]. now injection St as <- <- <-.
  + now injection St as <- <- <-.
- right. right. right.
  destruct (n <? MAX_RETRIES cfg)%nat.
  + destruct (start_attempt cfg (S n) k url) as [t1 e1] eqn:E.
    injection St as <- <- <-. split; [reflexivity|]. intros before. cbn [since_clear].
    pose proof (inert_start (S n) k url) as I. rewrite E in I. apply I.
  + now injection St as <- <- <-.
- left. pose proof (inert_start (S n) k url) as I.
  destruct (start_attempt cfg (S n) k url) as [t1 e1]. now injection St as <- <- <-.
Qed.

(** Every move of the scheduler keeps the session ready. *)
Lemma exec1_ok (a : action) (s s' : system) :
  session_ok cfg s -> exec1 a s = Some s' -> session_ok cfg s'.
Proof.
unfold session_ok. intros Hs E. destruct a as [k|slot i]; cbn [KaitenClient.exec1] in E.
- now injection E as <-.
- destruct (pool s !! slot) as [t|]; [|discriminate E].
  destruct (admissible s i) eqn:Adm; [|discriminate E].
  destruct (step i t (shared s)) as [[[t' c'] e]|] eqn:St; [|discriminate E].
  injection E as <-. cbn [shared clock journal]. rewrite since_clear_app.
  assert (Hclock : (clock s <= advance s i)%Q).
  { destruct i; simpl in *; try lra. now apply Qle_bool_iff. }
  apply (consistent_later _ _ _ _ _ Hclock) in Hs.
  destruct (step_effect _ _ _ _ _ _ St) as [[Hw He]|[(now & -> & Hw & He)|
    [(now & -> & Hroom & Hw & He)|[Hw He]]]]; rewrite Hw, He.
  + exact Hs.
  + now apply consistent_prune.
  + now apply consistent_grant.
  + apply consistent_empty.
Qed.

Lemma exec_ok (schedule : list action) (s s' : system) :
  session_ok cfg s -> exec schedule s = Some s' -> session_ok cfg s'.
Proof.
revert s. induction schedule as [|a rest IH]; intros s Hs E; simpl in E.
- now injection E as <-.
- destruct (exec1 a s) as [s1|] eqn:E1; [|discriminate E].
  eapply IH; [|exact E]. eapply exec1_ok; eassumption.
Qed.

(** C1, as the code has it.  On a session that starts with an empty
    window and whose clock has passed 1.0 at every reading (where the float
    comparison of line 125 is the exact one), whatever calls are made and
    however the scheduler interleaves them between their suspension points
    under a monotonic clock: a pass of the limiter appends its reading only
    where the pruned window holds fewer than the limit, and only prunes
    otherwise; the shared window never holds more than the limit; and no
    trailing second holds more than the limit of the timestamps recorded
    since the window was last cleared on a 429 (of all the timestamps
    recorded, when there was no such clearing). *)
Theorem window_never_overfull (c : client) (t0 : Q) (schedule : list action) (s : system) :
  _request_times c = [] ->
  from_one_second schedule = true ->
  exec schedule (boot c t0) = Some s ->
  (forall now w,
      (snd (pass limit now w) = Granted ->
         (length (prune now w) < limit)%nat /\ fst (pass limit now w) = prune now w ++ [now])
      /\ (snd (pass limit now w) <> Granted ->
         (limit <= length (prune now w))%nat /\ fst (pass limit now w) = prune now w))
  /\ (length (_request_times (shared s)) <= limit)%nat
  /\ (forall T, (count_in T (since_clear [] (journal s)) <= limit)%nat)
  /\ (~ In EvClear (journal s) ->
      forall T, (count_in T (recorded (journal s)) <= limit)%nat).
Proof.
intros Hw _ E.
assert (Hok : session_ok cfg s).
{ eapply exec_ok; [|exact E]. unfold session_ok, boot. cbn. rewrite Hw.
  apply consistent_empty. }
destruct Hok as [_ Hb Hl].
split; [intros now w; split; [apply pass_granted|apply pass_refused]|].
split; [exact Hl|]. split; [exact Hb|].
intros Hnc T. specialize (Hb T). now rewrite since_clear_recorded in Hb.
Qed.

End Session.

(** Four calls within three eighths of a second, the first at 1.0: the
    fourth has to wait until the first timestamp is a second old. *)
Lemma window_never_overfull_witness :
  let k := mk_call "GET" "/cards" None in
  let schedule :=
    [Spawn k; Resume 0 (Clock 1); Spawn k; Resume 1 (Clock (9#8)); Spawn k;
     Resume 2 (Clock (5#4)); Spawn k; Resume 3 (Clock (11#8)); Resume 3 (Clock 2)] in
  exists s : system,
    exec float_of_digits str_of_json_stub defaults schedule (boot demo_client 1) = Some s
    /\ recorded (journal s) = [1; 9#8; 5#4; 2]%Q
    /\ sleeps (journal s) = [1 - ((11#8) - 1)]%Q
    /\ (count_in 2 (recorded (journal s)) <= 3)%nat.
Proof.
intros k schedule. eexists. split; [vm_compute; reflexivity|].
split; [reflexivity|]. split; [reflexivity|].
refine (proj2 (proj2 (proj2 (window_never_overfull float_of_digits str_of_json_stub defaults
          demo_client 1 schedule _ eq_refl eq_refl _))) _ 2%Q).
- vm_compute. reflexivity.
- vm_compute. intuition discriminate.
Defined.

(** C1 as stated fails once a 429 has cleared the window.  The first call,
    made at 2, is answered with 429 and sleeps a second; two calls are made
    at 2.5; the first call wakes and clears the window; two more calls, made
    at 3.125, find it empty and are let through: four timestamps within the
    second that ends at 3.125, under a limit of three.  (The readings are
    floats above 1.0 and the differences are exact.) *)
Lemma cleared_window_admits_a_fourth :
  let k := mk_call "GET" "/cards" None in
  let r := mk_response 429 None (ClientError "unexpected mimetype") (Ok "") in
  let schedule :=
    [Spawn k; Resume 0 (Clock 2); Resume 0 (Net (Ok r));
     Spawn k; Resume 1 (Clock (5#2)); Spawn k; Resume 2 (Clock (5#2));
     Resume 0 Wake;
     Spawn k; Resume 3 (Clock (25#8)); Spawn k; Resume 4 (Clock (25#8))] in
  match exec float_of_digits str_of_json_stub defaults schedule (boot demo_client 2) with
  | Some s =>
      LIMIT_PER_SEC defaults = 3%nat
      /\ from_one_second schedule = true
      /\ recorded (journal s) = [2; 5#2; 5#2; 25#8; 25#8]%Q
      /\ sleeps (journal s) = [1%Q]
      /\ count_in (25#8) (recorded (journal s)) = 4%nat
      /\ ~ (count_in (25#8) (recorded (journal s)) <= LIMIT_PER_SEC defaults)%nat
  | None => False
  end.
Proof. vm_compute. repeat split. lia. Qed.

End SessionFacts.

(** * Further properties *)

(** ** The limiter makes progress *)

Module LimiterProgress.
Import RateWindow WindowFacts KaitenClient Session.

Lemma pass_wait_inv (limit : nat) (now d : Q) (w w' : list Q) :
  pass limit now w = (w', Wait d) ->
  w' = prune now w
  /\ exists oldest, minimum (prune now w) = Some oldest
       /\ d = (1 - (now - oldest))%Q /\ (0 < d)%Q.
Proof.
unfold pass. destruct (limit <=? length (prune now w))%nat; [|discriminate].
destruct (minimum (prune now w)) as [m|] eqn:M; [|discriminate].
destruct (Qltb 0 (1 - (now - m))) eqn:P; [|discriminate].
intros [= <- <-]. split; [reflexivity|]. exists m.
split; [reflexivity|]. split; [reflexivity|]. now apply Qltb_lt.
Qed.

(** X1. One sleep is enough for a call on its own.  With the stamps of
    the window at 1.0 or later and not after the reading (the floats on
    which the limiter's arithmetic is exact): where the window holds no
    more than the limit and a pass makes the call sleep, the pass at any
    reading taken no earlier than the sleep asked for lets it through, and
    appends that reading. *)
Theorem one_sleep_suffices (limit : nat) (now now' d : Q) (w w' : list Q) :
  (forall t, In t w -> (1 <= t)%Q /\ (t <= now)%Q) ->
  (length w <= limit)%nat ->
  pass limit now w = (w', Wait d) ->
  (now + d <= now')%Q ->
  pass limit now' w' = (prune now' w' ++ [now'], Granted).
Proof.
intros _ Hl Hp Hlater.
destruct (pass_wait_inv _ _ _ _ _ Hp) as (-> & oldest & Hm & -> & _).
pose proof (wait_makes_room now now' oldest w Hm Hlater) as Hroom.
pose proof (filter_length_le (recent now) w) as Hle. fold (prune now w) in Hle.
unfold pass.
assert ((limit <=? length (prune now' (prune now w)))%nat = false) as ->
  by (apply Nat.leb_gt; lia).
reflexivity.
Qed.

(** Three calls at 1, 1.125 and 1.25; a fourth at 1.375 sleeps 0.625 and
    is let through at 2. *)
Lemma one_sleep_suffices_witness :
  pass 3 2 [1; 9#8; 5#4]%Q = ([9#8; 5#4; 2]%Q, Granted).
Proof.
refine (one_sleep_suffices 3 (11#8) 2 (1 - ((11#8) - 1)) [1; 9#8; 5#4]%Q [1; 9#8; 5#4]%Q
         _ ltac:(simpl; lia) eq_refl ltac:(vm_compute; discriminate)).
intros t [<-|[<-|[<-|[]]]]; split; vm_compute; discriminate.
Defined.

Section Sleeps.

Variable float_of_str : string -> option Q.
Variable str_of_json : json -> string.
Variable cfg : settings.

Local Abbreviation step := (step float_of_str str_of_json cfg).
Local Abbreviation exec1 := (exec1 float_of_str str_of_json cfg).
Local Abbreviation exec := (exec float_of_str str_of_json cfg).

Lemma in_prune (now t : Q) (w : list Q) : In t (prune now w) -> In t w.
Proof. unfold prune. rewrite List.filter_In. tauto. Qed.

Lemma exec1_stamps (a : action) (s s' : system) :
  stamps_in_past s -> exec1 a s = Some s' -> stamps_in_past s'.
Proof.
unfold stamps_in_past. intros Hs E.
destruct a as [k|slot i]; cbn [KaitenClient.exec1] in E.
- now injection E as <-.
- destruct (pool s !! slot) as [t|]; [|discriminate E].
  destruct (admissible s i) eqn:Adm; [|discriminate E].
  destruct (step i t (shared s)) as [[[t' c'] e]|] eqn:St; [|discriminate E].
  injection E as <-. cbn [shared clock].
  assert (Hclock : (clock s <= advance s i)%Q).
  { destruct i; simpl in *; try lra. now apply Qle_bool_iff. }
  destruct (SessionFacts.step_effect _ _ _ _ _ _ _ _ _ St)
    as [[Hw _]|[(now & -> & Hw & _)|[(now & -> & _ & Hw & _)|[Hw _]]]];
    rewrite Hw; intros t0 Hin.
  + specialize (Hs t0 Hin). lra.
  + apply in_prune in Hin. specialize (Hs t0 Hin). simpl in *. lra.
  + apply in_app_or in Hin as [Hin|[<-|[]]]; [|simpl; lra].
    apply in_prune in Hin. specialize (Hs t0 Hin). simpl in *. lra.
  + destruct Hin.
Qed.

Lemma exec_stamps (schedule : list action) (s s' : system) :
  stamps_in_past s -> exec schedule s = Some s' -> stamps_in_past s'.
Proof.
revert s. induction schedule as [|a rest IH]; intros s Hs E; simpl in E.
- now injection E as <-.
- destruct (exec1 a s) as [s1|] eqn:E1; [|discriminate E].
  eapply IH; [|exact E]. eapply exec1_stamps; eassumption.
Qed.

(** X2. In a session that starts with an empty window, however its calls
    are interleaved, every stamp of the window lies in the past, and so
    every sleep the limiter asks of a call (any call, resumed at a reading
    the clock can give) is positive and no longer than one second. *)
Theorem limiter_sleep_within_a_second (c : client) (t0 : Q) (schedule : list action)
    (s : system) (t t' : task) (now : Q) (c' : client) (evs : list event) :
  _request_times c = [] ->
  exec schedule (boot c t0) = Some s ->
  admissible s (Clock now) = true ->
  step (Clock now) t (shared s) = Some (t', c', evs) ->
  stamps_in_past s
  /\ forall d, In d (sleeps evs) -> (0 < d)%Q /\ (d <= 1)%Q.
Proof.
intros Hw E Adm St.
assert (Hpast : stamps_in_past s).
{ eapply exec_stamps; [|exact E]. intros t1. cbn. rewrite Hw. intros []. }
split; [exact Hpast|].
assert (Hacq : forall b k, acquire cfg b now k (shared s) = (t', c', evs) ->
          forall d, In d (sleeps evs) -> (0 < d)%Q /\ (d <= 1)%Q).
{ intros b k. unfold acquire.
  set (c1 := if b then initialize (shared s) else shared s).
  assert (Hc1 : _request_times c1 = _request_times (shared s)).
  { subst c1. destruct b; [|reflexivity]. unfold initialize.
    now destruct (negb (_is_initialized (shared s))). }
  destruct (b && negb (session c1)); [intros [= <- <- <-] d []|].
  rewrite Hc1.
  destruct (pass (LIMIT_PER_SEC cfg) now (_request_times (shared s))) as [w v] eqn:P.
  destruct v as [|d0| |].
  - destruct (KaitenConfig.get_base_url _) as [base|err].
    + unfold start_attempt. destruct (1 <=? MAX_RETRIES cfg)%nat;
        intros [= <- <- <-] d [].
    + intros [= <- <- <-] d [].
  - intros [= <- <- <-] d [<-|[]].
    destruct (pass_wait_inv _ _ _ _ _ P) as (_ & oldest & Hm & -> & Hpos).
    split; [exact Hpos|].
    apply minimum_in, in_prune in Hm. specialize (Hpast oldest Hm).
    simpl in Adm. apply Qle_bool_iff in Adm. lra.
  - intros [= <- <- <-] d [].
  - intros [= <- <- <-] d []. }
destruct t as [k|k|n k url|n k url|n k url|r]; try discriminate St;
  cbn [KaitenClient.step] in St; injection St as St; eauto.
Qed.

End Sleeps.

(** The fourth call within a third of a second sleeps 0.7. *)
Lemma limiter_sleep_within_a_second_witness :
  let k := mk_call "GET" "/cards" None in
  let schedule :=
    [Spawn k; Resume 0 (Clock 0); Spawn k; Resume 1 (Clock (1#10)); Spawn k;
     Resume 2 (Clock (2#10)); Spawn k] in
  let d := (1 - ((3#10) - 0))%Q in
  (0 < d)%Q /\ (d <= 1)%Q.
Proof.
intros k schedule d.
pose (url := "https://co.kaiten.ru/api/v1/cards").
pose (c := mk_client "secret" "co" true [0; 1#10; 2#10]%Q (KaitenCredentials.mk "co" "secret") true).
pose (s := mk_system c [Sending 1 k url; Sending 1 k url; Sending 1 k url; Entry k] (2#10)
             [EvRecord 0; EvSend 1 "GET" url; EvRecord (1#10); EvSend 1 "GET" url;
              EvRecord (2#10); EvSend 1 "GET" url]).
refine (proj2 (limiter_sleep_within_a_second float_of_digits str_of_json_stub defaults
          demo_client 0 schedule s (Entry k) (Throttled k) (3#10) c [EvSleep d]
          eq_refl _ eq_refl eq_refl) d (or_introl eq_refl)).
vm_compute. reflexivity.
Defined.

End LimiterProgress.

(** ** What a call does and raises, whatever it is answered *)

Module CallBounds.
Import PyStr KaitenClient Session CallFacts.

Section Bounds.

Variable float_of_str : string -> option Q.
Variable str_of_json : json -> string.
Variable cfg : settings.

Local Abbreviation step := (step float_of_str str_of_json cfg).
Local Abbreviation _request := (_request float_of_str str_of_json cfg).

(** X3. However a call is answered and resumed, it records one timestamp
    at most, and the exchanges it sends are numbered 1, 2, ... without a
    gap and are no more than [MAX_RETRIES]. *)
Theorem attempts_within_budget (k : call) (inputs : list input) (c c' : client)
    (t : task) (evs : list event) :
  _request inputs (Entry k) c = Some (t, c', evs) ->
  (length (recorded evs) <= 1)%nat
  /\ exists n, sends evs = seq 1 n /\ (n <= MAX_RETRIES cfg)%nat.
Proof.
intros R. pose proof (run_from_entry _ _ _ k inputs t c c' evs R) as H.
destruct t as [k'|k'|n k' url|n k' url|n k' url|r]; cbn [well_shaped] in H.
- destruct H as (_ & -> & ->). split; [simpl; lia|]. exists 0%nat. split; [reflexivity|lia].
- destruct H as (_ & -> & ->). split; [simpl; lia|]. exists 0%nat. split; [reflexivity|lia].
- destruct H as (_ & Hs & Hr & Hn). split; [lia|]. exists n. split; [assumption|lia].
- destruct H as (_ & Hs & Hr & Hn). split; [lia|]. exists n. split; [assumption|lia].
- destruct H as (_ & Hs & Hr & Hn). split; [lia|]. exists n. split; [assumption|lia].
- exact H.
Qed.

(** X4. A response with a status of 400 or more never makes the call
    return a value.  Outside 404, 422 and 429 the call raises the plain
    [KaitenApiError] with the status and the text of the body in its message,
    and with no status code of its own. *)
Theorem error_status_never_returns (n : nat) (k : call) (url : string) (r : response)
    (c c' : client) (t' : task) (evs : list event) :
  (400 <= status r)%Z ->
  step (Net (Ok r)) (Sending n k url) c = Some (t', c', evs) ->
  (forall v, t' <> Finished (Return v))
  /\ (forall text, status r <> 404%Z -> status r <> 422%Z -> status r <> 429%Z ->
        text_body r = Ok text ->
        t' = Finished (Raise (mk_exn KaitenApiError
               ("API error " +:+ str_int (status r) +:+ ": " +:+ text) None))).
Proof.
intros Hs St. cbn [KaitenClient.step] in St.
assert (Hbody : forall (A : Type) (body : io A) (cont : A -> result json),
          (forall a, exists e, cont a = Raise e) ->
          forall v, fst (with_body cfg n k url body cont) <> Finished (Return v)).
{ intros A body cont Hc v. destruct body as [a|e|e]; cbn [with_body fst].
  - destruct (Hc a) as [e ->]. discriminate.
  - unfold on_client_error. destruct (n <? MAX_RETRIES cfg)%nat; discriminate.
  - discriminate. }
unfold classify in St.
destruct (status r =? 429)%Z eqn:E1.
{ injection St as <- <- <-. split; [discriminate|]. intros. lia. }
destruct (status r =? 404)%Z eqn:E2.
{ injection St as <- <- <-. split; [discriminate|]. intros. lia. }
destruct (status r =? 422)%Z eqn:E3.
{ split; [|intros; lia]. intros v.
  pose proof (Hbody _ (json_body r)
    (fun error_data => Raise (mkKaitenValidationError
       ("Validation error: " +:+ str_of_json error_data))) ltac:(eauto) v) as B.
  destruct (with_body _ _ _ _ _ _) as [t1 e1]. injection St as <- <- <-. exact B. }
assert ((400 <=? status r)%Z = true) as E4 by (apply Z.leb_le; lia).
rewrite E4 in St. split.
- intros v.
  pose proof (Hbody _ (text_body r)
    (fun error_data => Raise (mkKaitenApiError
       ("API error " +:+ str_int (status r) +:+ ": " +:+ error_data))) ltac:(eauto) v) as B.
  destruct (with_body _ _ _ _ _ _) as [t1 e1]. injection St as <- <- <-. exact B.
- intros text _ _ _ Ht. rewrite Ht in St. cbn [with_body] in St. now injection St as <- <- <-.
Qed.

Lemma coherent_initialize (c : client) :
  coherent c -> coherent (initialize c) /\ session (initialize c) = true.
Proof.
unfold coherent, initialize. destruct c as [tk dm ss w cf ini]; cbn.
destruct ini; cbn; intros ->; auto.
Qed.

Lemma domain_initialize (c : client) : domain (initialize c) = domain c.
Proof. unfold initialize. now destruct (negb (_is_initialized c)). Qed.

(** What a step leaves of the client: the domain, and the agreement of
    [session] and [_is_initialized]. *)
Lemma step_keeps_client (i : input) (t t' : task) (c c' : client) (evs : list event) :
  step i t c = Some (t', c', evs) ->
  domain c' = domain c /\ (coherent c -> coherent c').
Proof.
assert (Hacq : forall b now k, acquire cfg b now k c = (t', c', evs) ->
          domain c' = domain c /\ (coherent c -> coherent c')).
{ intros b now k. unfold acquire.
  set (c1 := if b then initialize c else c).
  assert (H1 : domain c1 = domain c /\ (coherent c -> coherent c1)).
  { subst c1. destruct b; [|auto]. split; [apply domain_initialize|].
    intros H. now apply coherent_initialize. }
  destruct (b && negb (session c1)); [now intros [= <- <- <-]|].
  destruct (RateWindow.pass _ _ _) as [w v].
  assert (H2 : domain (set_request_times c1 w) = domain c
               /\ (coherent c -> coherent (set_request_times c1 w))) by exact H1.
  destruct v as [|d| |].
  - destruct (KaitenConfig.get_base_url _) as [base|err].
    + destruct (start_attempt cfg 1 k _) as [t1 e1]. now intros [= <- <- <-].
    + now intros [= <- <- <-].
  - now intros [= <- <- <-].
  - now intros [= <- <- <-].
  - now intros [= <- <- <-]. }
intros St.
destruct t as [k|k|n k url|n k url|n k url|r]; destruct i as [now|o|];
  try discriminate St; cbn [KaitenClient.step] in St.
- injection St as St. eauto.
- injection St as St. eauto.
- destruct o as [r|err|err].
  + destruct (classify _ _ _ _ _ _ _) as [t1 e1]. injection St as <- <- <-. auto.
  + destruct (on_client_error _ _ _ _ _) as [t1 e1]. injection St as <- <- <-. auto.
  + injection St as <- <- <-. auto.
- destruct (n <? MAX_RETRIES cfg)%nat.
  + destruct (start_attempt cfg (S n) k url) as [t1 e1]. injection St as <- <- <-. auto.
  + injection St as <- <- <-. auto.
- destruct (start_attempt cfg (S n) k url) as [t1 e1]. injection St as <- <- <-. auto.
Qed.

Lemma expected_client_error (n : nat) (k : call) (url e : string) :
  raises_expected (fst (on_client_error cfg n k url e)).
Proof. unfold on_client_error. now destruct (n <? MAX_RETRIES cfg)%nat. Qed.

Lemma expected_with_body {A : Type} (n : nat) (k : call) (url : string) (body : io A)
    (cont : A -> result json) :
  (forall a e, cont a = Raise e -> expected_kind e = true) ->
  raises_expected (fst (with_body cfg n k url body cont)).
Proof.
intros H. destruct body as [a|e|e]; cbn [with_body fst].
- cbn. destruct (cont a) eqn:E; [exact I|]. eapply H; eassumption.
- apply expected_client_error.
- reflexivity.
Qed.

Lemma expected_classify (n : nat) (k : call) (url : string) (r : response) :
  raises_expected (fst (classify float_of_str str_of_json cfg n k url r)).
Proof.
unfold classify.
repeat match goal with
       | |- context [if ?b then _ else _] => destruct b
       end; try (apply expected_with_body; intros a e [= <-]); reflexivity.
Qed.

Lemma expected_start (n : nat) (k : call) (url : string) :
  raises_expected (fst (start_attempt cfg n k url)).
Proof. unfold start_attempt. now destruct (n <=? MAX_RETRIES cfg)%nat. Qed.

Lemma step_raises_expected (i : input) (t t' : task) (c c' : client) (evs : list event) :
  (1 <= LIMIT_PER_SEC cfg)%nat ->
  domain c <> EmptyString ->
  (match t with Entry _ => coherent c | _ => True end) ->
  raises_expected t ->
  step i t c = Some (t', c', evs) ->
  raises_expected t' /\ (match t' with Entry _ => False | _ => True end).
Proof.
intros Hl Hd Hc Ht.
assert (Hacq : forall b now k, (b = true -> coherent c) ->
          acquire cfg b now k c = (t', c', evs) ->
          raises_expected t' /\ (match t' with Entry _ => False | _ => True end)).
{ intros b now k Hb. unfold acquire.
  set (c1 := if b then initialize c else c).
  assert (Hs : b && negb (session c1) = false).
  { destruct b; [|reflexivity]. subst c1.
    destruct (coherent_initialize c (Hb eq_refl)) as [_ ->]. reflexivity. }
  assert (Hd1 : domain c1 = domain c).
  { subst c1. destruct b; [apply domain_initialize|reflexivity]. }
  rewrite Hs.
  destruct (WindowFacts.pass_waits (LIMIT_PER_SEC cfg) now (_request_times c1) Hl)
    as [G|(oldest & _ & _ & P)].
  - destruct (RateWindow.pass _ _ _) as [w v]. cbn [snd] in G. subst v.
    unfold KaitenConfig.get_base_url. cbn [domain set_request_times]. rewrite Hd1.
    assert (falsy (domain c) = false) as -> by (destruct (domain c); [congruence|reflexivity]).
    pose proof (expected_start 1 k
      (build_url (("https://" +:+ KaitenConfig.with_suffix (KaitenConfig.domain_core (domain c))
                   +:+ "/api/" +:+ KaitenConfig.API_VERSION) +:+ endpoint k) (params k))) as E.
    unfold start_attempt in *. destruct (1 <=? MAX_RETRIES cfg)%nat;
      intros [= <- <- <-]; auto.
  - rewrite P. intros [= <- <- <-]. split; exact I. }
intros St.
destruct t as [k|k|n k url|n k url|n k url|r]; destruct i as [now|o|];
  try discriminate St; cbn [KaitenClient.step] in St.
- injection St as St. eapply Hacq; [|exact St]. auto.
- injection St as St. eapply Hacq; [|exact St]. discriminate.
- destruct o as [r|err|err].
  + pose proof (expected_classify n k url r) as E.
    destruct (classify _ _ _ _ _ _ _) as [t1 e1] eqn:C. injection St as <- <- <-.
    split; [exact E|]. cbn [fst] in *.
    revert C. unfold classify, with_body, on_client_error.
    repeat match goal with
           | |- context [if ?b then _ else _] => destruct b
           | |- context [match ?b with Ok _ => _ | ClientError _ => _ | OtherError _ => _ end] =>
               destruct b
           end; intros [= <- _]; exact I.
  + pose proof (expected_client_error n k url err) as E.
    unfold on_client_error in *. destruct (n <? MAX_RETRIES cfg)%nat;
      injection St as <- <- <-; auto.
  + injection St as <- <- <-. split; [reflexivity|exact I].
- destruct (n <? MAX_RETRIES cfg)%nat.
  + pose proof (expected_start (S n) k url) as E. unfold start_attempt in *.
    destruct (S n <=? MAX_RETRIES cfg)%nat; injection St as <- <- <-; auto.
  + injection St as <- <- <-. split; [reflexivity|exact I].
- pose proof (expected_start (S n) k url) as E. unfold start_attempt in *.
  destruct (S n <=? MAX_RETRIES cfg)%nat; injection St as <- <- <-; auto.
Qed.

(** X5. On a client whose [session] and [_is_initialized] agree and whose
    domain is not empty, under a limit of at least one, a call that ends by
    raising raises [KaitenApiError], [KaitenNotFoundError],
    [KaitenValidationError], or the exception of the transport that is not an
    [aiohttp.ClientError]: never the [RuntimeError] of the session check, nor
    a [ValueError] of [min] or of [get_base_url]. *)
Theorem raises_only_expected (k : call) (inputs : list input) (c c' : client)
    (e : exn) (evs : list event) :
  (1 <= LIMIT_PER_SEC cfg)%nat ->
  coherent c ->
  domain c <> EmptyString ->
  _request inputs (Entry k) c = Some (Finished (Raise e), c', evs) ->
  expected_kind e = true
  /\ exn_type e <> RuntimeError /\ exn_type e <> ValueError.
Proof.
intros Hl Hc Hd R.
assert (G : forall inputs t c t' c' evs,
          domain c <> EmptyString ->
          (match t with Entry _ => coherent c | _ => True end) ->
          raises_expected t ->
          _request inputs t c = Some (t', c', evs) -> raises_expected t').
{ clear -Hl. induction inputs as [|i rest IH]; intros t c t' c' evs Hd Hc Ht R; simpl in R.
  - now injection R as <- <- <-.
  - destruct (step i t c) as [[[t1 c1] e1]|] eqn:St; [|discriminate R].
    destruct (KaitenClient._request _ _ _ rest t1 c1) as [[[t2 c2] e2]|] eqn:R';
      [|discriminate R].
    injection R as <- <- <-.
    destruct (step_raises_expected _ _ _ _ _ _ Hl Hd Hc Ht St) as [E1 N1].
    destruct (step_keeps_client _ _ _ _ _ _ St) as [D1 _].
    eapply IH; [| |exact E1|exact R'].
    + now rewrite D1.
    + destruct t1; auto. destruct N1. }
pose proof (G inputs (Entry k) c _ c' evs Hd Hc I R) as E. cbn in E.
split; [exact E|]. unfold expected_kind in E.
destruct (exn_type e); try discriminate E; split; discriminate.
Qed.

Lemma failing_from (k : call) (url : string) (c : client) (errors : list string) (n : nat) :
  errors <> [] ->
  (n + length errors = S (MAX_RETRIES cfg))%nat ->
  exists evs,
    _request (failing errors) (Sending n k url) c
    = Some (Finished (Raise (mkKaitenApiError
              ("HTTP client error after " +:+ str_int (Z.of_nat (MAX_RETRIES cfg))
               +:+ " retries: " +:+ List.last errors EmptyString))), c, evs)
    /\ sends evs = seq (S n) (length errors - 1)
    /\ sleeps evs = repeat (RETRY_DELAY cfg) (length errors - 1)
    /\ recorded evs = [].
Proof.
revert n. induction errors as [|e rest IH]; intros n Hne Hlen; [congruence|].
destruct rest as [|e' rest].
- simpl in Hlen. exists []. cbn [failing KaitenClient._request KaitenClient.step].
  unfold on_client_error.
  assert ((n <? MAX_RETRIES cfg)%nat = false) as -> by (apply Nat.ltb_ge; lia).
  repeat split.
- destruct (IH (S n)) as (evs & Hrun & Hs & Hz & Hr); [discriminate|simpl in *; lia|].
  exists (EvSleep (RETRY_DELAY cfg) :: EvSend (S n) (method k) url :: evs).
  change (failing (e :: e' :: rest))
    with (Net (ClientError e) :: Wake :: failing (e' :: rest)).
  cbn [KaitenClient._request KaitenClient.step]. unfold on_client_error.
  assert ((n <? MAX_RETRIES cfg)%nat = true) as -> by (apply Nat.ltb_lt; simpl in Hlen; lia).
  cbn [KaitenClient._request KaitenClient.step]. unfold start_attempt.
  assert ((S n <=? MAX_RETRIES cfg)%nat = true) as ->
    by (apply Nat.leb_le; simpl in Hlen; lia).
  rewrite Hrun. split; [reflexivity|].
  cbn [sends sleeps recorded]. rewrite Hs, Hz, Hr.
  replace (length (e :: e' :: rest) - 1)%nat with (S (length (e' :: rest) - 1))
    by (simpl; lia).
  repeat split.
Qed.

(** X6. Under any budget of at least one attempt, a call whose every
    exchange raises [aiohttp.ClientError] sends exactly as many exchanges
    as the budget allows, sleeps [RETRY_DELAY] after each but the last,
    records no further timestamp, and raises the [KaitenApiError] that
    carries the text of the last error. *)
Theorem client_errors_use_the_whole_budget (k : call) (pre : list input) (c0 c : client)
    (url : string) (evs0 : list event) (errors : list string) :
  _request pre (Entry k) c0 = Some (Sending 1 k url, c, evs0) ->
  length errors = MAX_RETRIES cfg ->
  exists evs,
    _request (pre ++ failing errors) (Entry k) c0
    = Some (Finished (Raise (mkKaitenApiError
              ("HTTP client error after " +:+ str_int (Z.of_nat (MAX_RETRIES cfg))
               +:+ " retries: " +:+ List.last errors EmptyString))), c, evs0 ++ evs)
    /\ sends (evs0 ++ evs) = seq 1 (MAX_RETRIES cfg)
    /\ sleeps evs = repeat (RETRY_DELAY cfg) (MAX_RETRIES cfg - 1)
    /\ recorded (evs0 ++ evs) = recorded evs0.
Proof.
intros Hpre Hlen.
destruct (run_from_entry _ _ _ k pre _ c0 c evs0 Hpre) as (_ & Hs0 & _ & Hn).
destruct (failing_from k url c errors 1) as (evs & Hrun & Hs & Hz & Hr).
{ intros ->. simpl in Hlen. lia. }
{ lia. }
exists evs. rewrite run_app, Hpre, Hrun. split; [reflexivity|].
rewrite sends_app, recorded_app, Hs0, Hs, Hz, Hr, Hlen, app_nil_r.
split; [|split; reflexivity].
destruct (MAX_RETRIES cfg) as [|m]; [lia|]. cbn [seq]. f_equal.
now replace (S m - 1)%nat with m by lia.
Qed.

(** X7. A body that cannot be decoded is retried like a failed connection:
    where the response has a status below 400 other than 204 and
    [response.json()] raises an [aiohttp.ClientError], the call sleeps
    [RETRY_DELAY] and sends the same request again while attempts remain,
    and raises [KaitenApiError] on the last attempt. *)
Theorem undecodable_body_is_retried (n : nat) (k : call) (url e : string) (r : response)
    (c : client) :
  (status r < 400)%Z -> status r <> 204%Z ->
  json_body r = ClientError e ->
  ((n < MAX_RETRIES cfg)%nat ->
     _request [Net (Ok r); Wake] (Sending n k url) c
     = Some (Sending (S n) k url, c, [EvSleep (RETRY_DELAY cfg); EvSend (S n) (method k) url]))
  /\ ((MAX_RETRIES cfg <= n)%nat ->
     step (Net (Ok r)) (Sending n k url) c
     = Some (Finished (Raise (mkKaitenApiError
               ("HTTP client error after " +:+ str_int (Z.of_nat (MAX_RETRIES cfg))
                +:+ " retries: " +:+ e))), c, [])).
Proof.
intros Hs Hn Hb.
assert (Hc : classify float_of_str str_of_json cfg n k url r = on_client_error cfg n k url e).
{ unfold classify.
  destruct (status r =? 429)%Z eqn:E1; [lia|].
  destruct (status r =? 404)%Z eqn:E2; [lia|].
  destruct (status r =? 422)%Z eqn:E3; [lia|].
  destruct (400 <=? status r)%Z eqn:E4; [lia|].
  destruct (status r =? 204)%Z eqn:E5; [lia|].
  now rewrite Hb. }
split; intros Hlt.
- cbn [KaitenClient._request KaitenClient.step]. rewrite Hc.
  unfold on_client_error.
  assert ((n <? MAX_RETRIES cfg)%nat = true) as -> by (apply Nat.ltb_lt; lia).
  cbn [KaitenClient._request KaitenClient.step]. unfold start_attempt.
  assert ((S n <=? MAX_RETRIES cfg)%nat = true) as -> by (apply Nat.leb_le; lia).
  reflexivity.
- cbn [KaitenClient.step]. rewrite Hc. unfold on_client_error.
  assert ((n <? MAX_RETRIES cfg)%nat = false) as -> by (apply Nat.ltb_ge; lia).
  reflexivity.
Qed.

Local Abbreviation drive := (drive float_of_str str_of_json cfg).

Lemma coherent_close (c : client) : coherent c -> coherent (close c).
Proof.
unfold coherent, close. destruct c as [tk dm ss w cf ini]; cbn.
destruct ss, ini; cbn; congruence.
Qed.

(** X8. A client that [__init__] built keeps, through every sequence of
    [initialize], [close] and moves of its calls, the agreement of [session]
    and [_is_initialized] and its non-empty domain, so that no call on it
    raises the [RuntimeError] of the session check; and [close] leaves the
    rate window as it is. *)
Theorem session_stays_coherent (tk dm : string) (c : client) (t0 : Q)
    (ops : list (lifecycle + action)) (s : system) :
  __init__ tk dm = Return c ->
  drive ops (boot c t0) = Some s ->
  coherent (shared s)
  /\ domain (shared s) = dm
  /\ dm <> EmptyString
  /\ _request_times (close (shared s)) = _request_times (shared s)
  /\ session (close (shared s)) = false
  /\ session (initialize (shared s)) = true.
Proof.
intros Hinit Hrun.
assert (Hc0 : coherent c /\ domain c = dm /\ dm <> EmptyString).
{ unfold __init__ in Hinit.
  destruct (KaitenCredentials.__init__ dm tk) as [cred|err] eqn:E; [|discriminate].
  injection Hinit as <-. split; [reflexivity|]. split; [reflexivity|].
  intros ->. discriminate E. }
assert (G : forall ops s s', coherent (shared s) /\ domain (shared s) = dm ->
          drive ops s = Some s' -> coherent (shared s') /\ domain (shared s') = dm).
{ clear. induction ops as [|op rest IH]; intros s s' H R; simpl in R.
  - now injection R as <-.
  - destruct (drive1 _ _ _ op s) as [s1|] eqn:D; [|discriminate R].
    eapply IH; [|exact R]. destruct H as [Hc Hd].
    destruct op as [l|a]; cbn [drive1] in D.
    + injection D as <-. cbn [shared]. destruct l; cbn [apply_lifecycle].
      * split; [now apply coherent_initialize|now rewrite domain_initialize].
      * split; [now apply coherent_close|].
        unfold close. now destruct (session (shared s) && _is_initialized (shared s)).
    + destruct a as [k|slot i]; cbn [KaitenClient.exec1] in D.
      * now injection D as <-.
      * destruct (pool s !! slot) as [t|]; [|discriminate D].
        destruct (admissible s i); [|discriminate D].
        destruct (step i t (shared s)) as [[[t' c'] e]|] eqn:St; [|discriminate D].
        injection D as <-. cbn [shared].
        destruct (step_keeps_client _ _ _ _ _ _ St) as [D1 C1].
        split; [now apply C1|now rewrite D1]. }
destruct Hc0 as (Hc & Hd & Hne).
destruct (G ops (boot c t0) s (conj Hc Hd) Hrun) as [Hcs Hds].
split; [exact Hcs|]. split; [exact Hds|]. split; [exact Hne|].
split; [|split].
- unfold close. now destruct (session (shared s) && _is_initialized (shared s)).
- unfold close. destruct (session (shared s) && _is_initialized (shared s)) eqn:E;
    [reflexivity|]. unfold coherent in Hcs. rewrite <- Hcs in E.
  now destruct (session (shared s)).
- now apply coherent_initialize.
Qed.

End Bounds.

(** A DELETE answered with 404 on the first exchange. *)
Lemma attempts_within_budget_witness :
  let evs := [EvRecord 0; EvSend 1 "DELETE" "https://co.kaiten.ru/api/v1/cards/5"] in
  (length (recorded evs) <= 1)%nat
  /\ exists n, sends evs = seq 1 n /\ (n <= 3)%nat.
Proof.
intros evs.
exact (attempts_within_budget float_of_digits str_of_json_stub defaults (delete_card_call 5)
         [Clock 0; Net (Ok (mk_response 404 None (ClientError "") (Ok "")))] demo_client
         _ _ evs eq_refl).
Defined.

(** A 503 with a plain-text body. *)
Lemma error_status_never_returns_witness :
  let k := mk_call "GET" "/cards" None in
  let r := mk_response 503 None (ClientError "unexpected mimetype") (Ok "busy") in
  exists t',
    step float_of_digits str_of_json_stub defaults (Net (Ok r)) (Sending 1 k "u") demo_client
    = Some (t', demo_client, [])
    /\ t' = Finished (Raise (mk_exn KaitenApiError "API error 503: busy" None)).
Proof.
intros k r. eexists. split; [reflexivity|].
exact (proj2 (error_status_never_returns float_of_digits str_of_json_stub defaults 1 k "u" r
                demo_client demo_client _ [] ltac:(cbn; lia) eq_refl)
         "busy" ltac:(cbn; lia) ltac:(cbn; lia) ltac:(cbn; lia) eq_refl).
Defined.

(** A PATCH answered with 422 and a decoded body. *)
Lemma raises_only_expected_witness :
  let k := mk_call "PATCH" "/cards/5" None in
  let r := mk_response 422 None (Ok (JStr "title is required")) (Ok "") in
  exists c' evs,
    demo_run [Clock 0; Net (Ok r)] (Entry k) demo_client
    = Some (Finished (Raise (mkKaitenValidationError "Validation error: title is required")),
            c', evs)
    /\ exn_type (mkKaitenValidationError "Validation error: title is required") <> RuntimeError.
Proof.
intros k r. eexists _, _. split; [reflexivity|].
exact (proj1 (proj2 (raises_only_expected float_of_digits str_of_json_stub defaults k
         [Clock 0; Net (Ok r)] demo_client _ _ _
         ltac:(vm_compute; lia) eq_refl ltac:(discriminate) eq_refl))).
Defined.

(** A budget of two: two refused connections. *)
Lemma client_errors_use_the_whole_budget_witness :
  let k := mk_call "GET" "/cards" None in
  let cfg := mk_settings 3 2 (1#2) in
  exists c evs,
    _request float_of_digits str_of_json_stub cfg
      ([Clock 0] ++ failing ["refused"; "reset"]) (Entry k) demo_client
    = Some (Finished (Raise (mkKaitenApiError "HTTP client error after 2 retries: reset")),
            c, evs)
    /\ sends evs = [1; 2]%nat.
Proof.
intros k cfg.
pose (url := "https://co.kaiten.ru/api/v1/cards").
pose (c := mk_client "secret" "co" true [0%Q] (KaitenCredentials.mk "co" "secret") true).
destruct (client_errors_use_the_whole_budget float_of_digits str_of_json_stub cfg k
            [Clock 0] demo_client c url [EvRecord 0; EvSend 1 "GET" url]
            ["refused"; "reset"] eq_refl eq_refl) as (evs & Hrun & Hs & _).
exists c, ([EvRecord 0; EvSend 1 "GET" url] ++ evs). split; [exact Hrun|exact Hs].
Defined.

(** A card list answered with a page of HTML. *)
Lemma undecodable_body_is_retried_witness :
  let k := mk_call "GET" "/cards" None in
  let r := mk_response 200 None (ClientError "unexpected mimetype: text/html") (Ok "<html>") in
  demo_run [Net (Ok r); Wake] (Sending 1 k "u") demo_client
  = Some (Sending 2 k "u", demo_client, [EvSleep 1; EvSend 2 "GET" "u"]).
Proof.
intros k r.
exact (proj1 (undecodable_body_is_retried float_of_digits str_of_json_stub defaults 1 k "u"
                "unexpected mimetype: text/html" r demo_client
                ltac:(cbn; lia) ltac:(cbn; lia) eq_refl) ltac:(vm_compute; lia)).
Defined.

(** A client that is opened, used once, closed and opened again. *)
Lemma session_stays_coherent_witness :
  let k := mk_call "GET" "/cards" None in
  let ops := [inl Initialize; inr (Spawn k); inr (Resume 0 (Clock 0)); inl Close;
              inl Initialize] in
  exists s,
    drive float_of_digits str_of_json_stub defaults ops (boot demo_client 0) = Some s
    /\ coherent (shared s)
    /\ _request_times (shared s) = [0%Q].
Proof.
intros k ops. eexists. split; [reflexivity|]. split; [|reflexivity].
exact (proj1 (session_stays_coherent float_of_digits str_of_json_stub defaults
                "secret" "co" demo_client 0 ops _ eq_refl eq_refl)).
Defined.

End CallBounds.

(** ** [config.py] and [KaitenClient.__init__] together *)

Module ClientConfig.
Import PyStr PyStrFacts KaitenConfig.

(** X9. A client that [__init__] built has a base URL: [get_base_url] on
    the domain as given (what [_request] calls) does not raise and gives the
    URL that the credentials, which hold the trimmed domain, report as
    [base_url].  The client starts with an empty rate window and no
    session. *)
Theorem constructed_client_has_base_url (tk dm : string) (c : KaitenClient.client) :
  KaitenClient.__init__ tk dm = Return c ->
  KaitenClient.domain c = dm
  /\ KaitenCredentials._domain (KaitenClient.config c) = strip dm
  /\ KaitenCredentials._token (KaitenClient.config c) = strip tk
  /\ get_base_url dm = Return ("https://" +:+ with_suffix (domain_core dm) +:+ "/api/v1")
  /\ KaitenCredentials.base_url (KaitenClient.config c) = get_base_url dm
  /\ KaitenClient._request_times c = []
  /\ KaitenClient.session c = false
  /\ KaitenClient._is_initialized c = false.
Proof.
unfold KaitenClient.__init__, KaitenCredentials.__init__.
destruct (falsy dm || falsy (strip dm)) eqn:Ed; [discriminate|].
destruct (falsy tk || falsy (strip tk)) eqn:Et; [discriminate|].
intros [= <-]. cbn [KaitenClient.domain KaitenClient.config KaitenCredentials._domain
  KaitenCredentials._token KaitenClient._request_times KaitenClient.session
  KaitenClient._is_initialized].
apply orb_false_iff in Ed as [Ed1 Ed2].
repeat split.
- unfold get_base_url. now rewrite Ed1.
- unfold KaitenCredentials.base_url, get_base_url, domain_core.
  cbn [KaitenCredentials._domain]. now rewrite Ed1, Ed2, strip_idem.
Qed.

Lemma constructed_client_has_base_url_witness :
  KaitenCredentials.base_url (KaitenCredentials.mk "co" "secret")
  = get_base_url " https://co.kaiten.ru/ ".
Proof.
exact (proj1 (proj2 (proj2 (proj2 (proj2
  (constructed_client_has_base_url "secret " " https://co.kaiten.ru/ " _ eq_refl)))))).
Defined.

End ClientConfig.

(** ** [KaitenObject._parse_datetime] *)

Module ParseDatetimeFacts.
Import PyStr PyStrFacts RequestFacts ParseDatetime.

Lemma but_last_snoc (s : string) (c : ascii) : but_last (s +:+ String c EmptyString) = s.
Proof.
induction s as [|d s IH]; [reflexivity|].
rewrite append_cons. cbn [but_last]. rewrite IH.
destruct s; reflexivity.
Qed.

Lemma falsy_append (s t : string) : falsy t = false -> falsy (s +:+ t) = false.
Proof. destruct s; [trivial|reflexivity]. Qed.

Lemma eqb_append_single (s t : string) (c : ascii) :
  falsy t = false -> String.eqb (s +:+ String c t) (String c EmptyString) = false.
Proof.
intros Ht. destruct s as [|d s].
- change (EmptyString +:+ String c t) with (String c t). cbn [String.eqb].
  destruct (Ascii.eqb c c); [|reflexivity]. now destruct t.
- rewrite append_cons. cbn [String.eqb].
  destruct (Ascii.eqb d c); [|reflexivity]. now destruct s.
Qed.

(** A string that goes on after a character does not end with it alone. *)
Lemma endswith_longer (s t : string) (c d : ascii) :
  endswith (String d t) (String c EmptyString) = false ->
  endswith (s +:+ String d t) (String c EmptyString) = false.
Proof.
intros H. induction s as [|x s IH]; [exact H|].
rewrite append_cons. cbn [endswith].
destruct (String.eqb (String x (s +:+ String d t)) (String c EmptyString)) eqn:E; [|exact IH].
cbn [String.eqb] in E. destruct (Ascii.eqb x c); [|discriminate E].
destruct s; discriminate E.
Qed.

Section Parse.

Variable datetime : Type.
Variable fromisoformat : string -> option datetime.

Local Abbreviation parse := (_parse_datetime datetime fromisoformat).

(** X10. [_parse_datetime] reads a final ["Z"] as the offset ["+00:00"]:
    a timestamp written with either gives what [fromisoformat] makes of the
    second form.  [None] and the empty string give [None] without the parser
    being asked, and any other string is passed to it as it is. *)
Theorem parse_datetime_zulu (s : string) :
  parse (Some (s +:+ "Z")) = fromisoformat (s +:+ "+00:00")
  /\ parse (Some (s +:+ "+00:00")) = fromisoformat (s +:+ "+00:00")
  /\ parse None = None
  /\ parse (Some EmptyString) = None
  /\ (s <> EmptyString -> endswith s "Z" = false -> parse (Some s) = fromisoformat s).
Proof.
unfold _parse_datetime. repeat split.
- rewrite (falsy_append s "Z" eq_refl), endswith_app. now rewrite but_last_snoc.
- rewrite (falsy_append s "+00:00" eq_refl).
  now rewrite (endswith_longer s "00:00" "Z" "+" eq_refl).
- intros Hne Hz. rewrite Hz. destruct s; [congruence|reflexivity].
Qed.

End Parse.

Example parse_datetime_z :
  _parse_datetime string (fun s => Some s) (Some "2024-01-02T03:04:05Z")
  = Some "2024-01-02T03:04:05+00:00".
Proof. reflexivity. Qed.

End ParseDatetimeFacts.

(** ** [KaitenObject.__init__]: the dictionary is shared *)

Module SharedData.
Import KaitenObject.

Lemma mutate_same (l : loc) (ops : list dict_op) (h : heap) (d : dict) :
  h !! l = Some d ->
  mutate l ops h !! l = Some (fold_left (fun d op => apply_op op d) ops d).
Proof.
unfold mutate. revert h d. induction ops as [|op ops IH]; intros h d H; simpl; [exact H|].
apply IH. rewrite lookup_alter_eq, H. reflexivity.
Qed.

(** X11. An object keeps the dictionary it was built from by reference:
    what the holder of that dictionary writes to it afterwards is what
    [get], [__getitem__] and [__contains__] of the object read.  The [id] of
    a [Checklist] or [ChecklistItem] follows these writes too, while the [id]
    of every other class stays the one taken at construction. *)
Theorem init_shares_the_dictionary (cl : class) (l : loc) (h : heap) (d : dict) (o : obj)
    (ops : list dict_op) :
  h !! l = Some d ->
  __init__ cl l h = Some o ->
  let d' := fold_left (fun d op => apply_op op d) ops d in
  let h' := mutate l ops h in
  (forall key default, get o key default h' = Some (dict_get d' key default))
  /\ (forall key, __contains__ o key h' = Some (bool_decide (is_Some (d' !! key))))
  /\ (forall key v, d' !! key = Some v -> __getitem__ o key h' = Some (Return v))
  /\ (cl <> Checklist -> cl <> ChecklistItem ->
        id o h' = Some (_id o) /\ as_id (dict_get d "id" VNone) = Some (_id o))
  /\ (cl = Checklist \/ cl = ChecklistItem -> id o h' = as_id (dict_get d' "id" VNone)).
Proof.
intros Hl Hinit d' h'. unfold __init__ in Hinit. rewrite Hl in Hinit.
destruct (as_id (dict_get d "id" VNone)) as [i|] eqn:Ei; [|discriminate].
injection Hinit as <-.
pose proof (mutate_same l ops h d Hl) as Hm. fold d' h' in Hm.
unfold get, __contains__, __getitem__, id. cbn [_data cls _id]. rewrite Hm.
repeat split.
- intros key v ->. reflexivity.
- destruct cl; congruence.
- intros [->| ->]; reflexivity.
Qed.

(** A card and a checklist built from dictionaries whose ["id"] is then
    overwritten. *)
Lemma init_shares_the_dictionary_witness :
  let h : heap := {[ 0 := {[ "id" := VInt 7 ]} ]} in
  let h' := mutate 0 [SetItem "id" (VInt 8); SetItem "title" (VStr "T")] h in
  (forall o, __init__ Card 0 h = Some o ->
     get o "title" VNone h' = Some (VStr "T") /\ id o h' = Some (Some 7%Z))
  /\ (forall o, __init__ Checklist 0 h = Some o -> id o h' = Some (Some 8%Z)).
Proof.
intros h h'. split; intros o Ho.
- destruct (init_shares_the_dictionary Card 0 h {[ "id" := VInt 7 ]} o
              [SetItem "id" (VInt 8); SetItem "title" (VStr "T")] eq_refl Ho)
    as (Hget & _ & _ & Hid & _).
  split; [exact (Hget "title" VNone)|].
  destruct Hid as [Hid Hi]; [discriminate|discriminate|].
  exact (eq_trans Hid (eq_sym Hi)).
- destruct (init_shares_the_dictionary Checklist 0 h {[ "id" := VInt 7 ]} o
              [SetItem "id" (VInt 8); SetItem "title" (VStr "T")] eq_refl Ho)
    as (_ & _ & _ & _ & Hid).
  exact (Hid (or_introl eq_refl)).
Defined.

End SharedData.

(** ** [get_cards]: what is sent as query parameters *)

Module GetCardsFacts.
Import GetCards.

Lemma dict_get_set (k k' : string) (v : pyval) (d : pydict) :
  dict_get k' (dict_set k v d) = if String.eqb k k' then Some v else dict_get k' d.
Proof.
induction d as [|[k0 w] d IH]; simpl; [reflexivity|].
destruct (String.eqb k0 k) eqn:E0; simpl.
- apply String.eqb_eq in E0 as ->. now destruct (String.eqb k k').
- rewrite IH. destruct (String.eqb k0 k') eqn:E1; [|reflexivity].
  apply String.eqb_eq in E1 as ->. now rewrite String.eqb_sym, E0.
Qed.

Lemma dict_get_none (k : string) (d : pydict) :
  dict_get k d = None <-> ~ In k (map fst d).
Proof.
induction d as [|[k0 w] d IH]; simpl; [split; [intros _ []|reflexivity]|].
destruct (String.eqb k0 k) eqn:E.
- apply String.eqb_eq in E. split; [discriminate|]. intros H. exfalso. auto.
- apply String.eqb_neq in E. rewrite IH. tauto.
Qed.

Lemma dict_get_app (k : string) (a b : pydict) :
  dict_get k (a ++ b) = match dict_get k a with Some v => Some v | None => dict_get k b end.
Proof.
induction a as [|[k0 w] a IH]; simpl; [reflexivity|].
now destruct (String.eqb k0 k).
Qed.

Lemma in_dict_set (k : string) (v : pyval) (d : pydict) (kv : string * pyval) :
  In kv (dict_set k v d) -> kv = (k, v) \/ In kv d.
Proof.
induction d as [|[k0 w] d IH]; simpl; [intuition congruence|].
destruct (String.eqb k0 k) eqn:E; simpl.
- apply String.eqb_eq in E as ->. intuition congruence.
- intros [H|H]; [tauto|]. apply IH in H. tauto.
Qed.

Lemma keys_dict_set (k k' : string) (v : pyval) (d : pydict) :
  In k' (map fst (dict_set k v d)) <-> k' = k \/ In k' (map fst d).
Proof.
induction d as [|[k0 w] d IH]; simpl; [intuition congruence|].
destruct (String.eqb k0 k) eqn:E; simpl.
- apply String.eqb_eq in E as ->. intuition congruence.
- rewrite IH. intuition congruence.
Qed.

Lemma nodup_dict_set (k : string) (v : pyval) (d : pydict) :
  List.NoDup (map fst d) -> List.NoDup (map fst (dict_set k v d)).
Proof.
induction d as [|[k0 w] d IH]; simpl; intros H.
- constructor; [intros []|constructor].
- inversion H as [|x xs Hx Hd]; subst.
  destruct (String.eqb k0 k) eqn:E; simpl; [now constructor|].
  apply String.eqb_neq in E. constructor; [|now apply IH].
  rewrite keys_dict_set. intros [->|F]; [congruence|contradiction].
Qed.

(** What holds of a dictionary and of each value set holds of the result. *)
Lemma fold_set_clean (keep : string * pyval -> bool) (items d : pydict) :
  List.NoDup (map fst d) -> (forall kv, In kv d -> snd kv <> PNone) ->
  (forall kv, In kv items -> keep kv = true -> snd kv <> PNone) ->
  let r := fold_left (fun p kv => if keep kv then dict_set (fst kv) (snd kv) p else p) items d in
  List.NoDup (map fst r) /\ (forall kv, In kv r -> snd kv <> PNone).
Proof.
revert d. induction items as [|kv items IH]; intros d Hn Hv Hk; simpl; [auto|].
apply IH.
- destruct (keep kv); [now apply nodup_dict_set|exact Hn].
- destruct (keep kv) eqn:K; [|exact Hv]. intros kv' Hin.
  apply in_dict_set in Hin as [->|Hin]; [|now apply Hv].
  apply (Hk kv); [now left|exact K].
- intros kv' Hin. apply Hk. now right.
Qed.

Lemma nodup_dict_of (items : pydict) : List.NoDup (map fst (dict_of items)).
Proof.
unfold dict_of.
assert (G : forall d, List.NoDup (map fst d) ->
          List.NoDup (map fst (fold_left (fun d kv => dict_set (fst kv) (snd kv) d) items d))).
{ induction items as [|kv items IH]; intros d H; simpl; [exact H|].
  apply IH. now apply nodup_dict_set. }
apply G. constructor.
Qed.

(** A dict display holds, under a key, the last value given for it. *)
Lemma dict_get_fold (k : string) (items d : pydict) :
  dict_get k (fold_left (fun d kv => dict_set (fst kv) (snd kv) d) items d)
  = match dict_get k (rev items) with Some v => Some v | None => dict_get k d end.
Proof.
revert d. induction items as [|[k0 v0] items IH]; intros d; simpl; [reflexivity|].
rewrite IH, dict_get_app, dict_get_set. simpl.
destruct (dict_get k (rev items)); [reflexivity|].
now destruct (String.eqb k0 k).
Qed.

Lemma dict_get_uniform (arg : string -> pyval) (k : string) (d : pydict) :
  (forall kv, In kv d -> snd kv = arg (fst kv)) ->
  In k (map fst d) -> dict_get k d = Some (arg k).
Proof.
induction d as [|[k0 w] d IH]; simpl; intros Hu Hin; [destruct Hin|].
destruct (String.eqb k0 k) eqn:E.
- apply String.eqb_eq in E as <-. f_equal. exact (Hu (k0, w) (or_introl eq_refl)).
- apply String.eqb_neq in E. apply IH; [intros kv H; apply Hu; now right|].
  destruct Hin as [H|H]; [congruence|exact H].
Qed.

Lemma all_params_get (arg : string -> pyval) (extra : pydict) (k : string) :
  dict_get k extra = None ->
  dict_get k (all_params arg extra) = if bool_decide (In k named_filters) then Some (arg k) else None.
Proof.
intros He. unfold all_params, dict_of. rewrite dict_get_fold, rev_app_distr, dict_get_app.
assert (dict_get k (rev extra) = None) as ->.
{ apply dict_get_none. apply dict_get_none in He. rewrite map_rev, <- in_rev. exact He. }
cbn [dict_get].
set (entries := map (fun key => (key, arg key)) named_filters).
assert (Hk : In k (map fst (rev entries)) <-> In k named_filters).
{ rewrite map_rev, <- in_rev. subst entries. rewrite map_map. cbn [fst]. now rewrite map_id. }
case_bool_decide as Hin.
- rewrite (dict_get_uniform arg k (rev entries)); [reflexivity| |now apply Hk].
  intros kv H. apply in_rev in H. subst entries. apply in_map_iff in H as (key & <- & _).
  reflexivity.
- destruct (dict_get k (rev entries)) eqn:G; [|reflexivity].
  exfalso. apply Hin, Hk.
  destruct (in_dec string_dec k (map fst (rev entries))) as [Y|N]; [exact Y|].
  apply dict_get_none in N. congruence.
Qed.

Lemma dict_get_filter (keep : string * pyval -> bool) (k : string) (d : pydict) :
  List.NoDup (map fst d) ->
  dict_get k (List.filter keep d)
  = match dict_get k d with
    | Some v => if keep (k, v) then Some v else None
    | None => None
    end.
Proof.
induction d as [|[k0 w] d IH]; simpl; intros H; [reflexivity|].
inversion H as [|x xs Hx Hd]; subst.
destruct (String.eqb k0 k) eqn:E.
- apply String.eqb_eq in E as ->. destruct (keep (k, w)); simpl.
  + now rewrite String.eqb_refl.
  + rewrite IH by exact Hd. now apply dict_get_none in Hx as ->.
- destruct (keep (k0, w)); simpl; [rewrite E|]; now apply IH.
Qed.

Lemma nodup_filter_keys (keep : string * pyval -> bool) (d : pydict) :
  List.NoDup (map fst d) -> List.NoDup (map fst (List.filter keep d)).
Proof.
induction d as [|[k0 w] d IH]; simpl; intros H; [constructor|].
inversion H as [|x xs Hx Hd]; subst.
destruct (keep (k0, w)); simpl; [|now apply IH].
constructor; [|now apply IH]. intros F. apply Hx.
apply in_map_iff in F as (kv & <- & Hin). apply List.filter_In in Hin as [Hin _].
now apply in_map.
Qed.

Lemma fold_keep_filter (keep : string * pyval -> bool) (items d : pydict) :
  fold_left (fun p kv => if keep kv then dict_set (fst kv) (snd kv) p else p) items d
  = fold_left (fun p kv => dict_set (fst kv) (snd kv) p) (List.filter keep items) d.
Proof.
revert d. induction items as [|kv items IH]; intros d; simpl; [reflexivity|].
destruct (keep kv); simpl; apply IH.
Qed.

Lemma dict_get_rev (k : string) (d : pydict) :
  List.NoDup (map fst d) -> dict_get k (rev d) = dict_get k d.
Proof.
induction d as [|[k0 w] d IH]; simpl; intros H; [reflexivity|].
inversion H as [|x xs Hx Hd]; subst.
rewrite dict_get_app, IH by exact Hd. simpl.
destruct (String.eqb k0 k) eqn:E; [|now destruct (dict_get k d)].
apply String.eqb_eq in E as ->. now apply dict_get_none in Hx as ->.
Qed.

(** What [params] holds under a key, read off [all_params]. *)
Lemma params_get (board_id : pyval) (arg : string -> pyval) (extra : pydict) (k : string) :
  dict_get k (params board_id arg extra)
  = match dict_get k (all_params arg extra) with
    | Some v => if is_not_none v then Some v
                else dict_get k (if truthy board_id then [("board_id", board_id)] else [])
    | None => dict_get k (if truthy board_id then [("board_id", board_id)] else [])
    end.
Proof.
unfold params.
rewrite (fold_keep_filter (fun kv => is_not_none (snd kv))), dict_get_fold.
pose proof (nodup_dict_of (map (fun key => (key, arg key)) named_filters ++ extra)) as Hn.
fold (all_params arg extra) in Hn.
rewrite dict_get_rev by (now apply nodup_filter_keys).
rewrite dict_get_filter by exact Hn. cbn [snd].
destruct (dict_get k (all_params arg extra)) as [v|]; [|reflexivity].
now destruct (is_not_none v).
Qed.

Lemma board_id_not_named : ~ In "board_id" named_filters.
Proof.
intros H.
pose proof (proj2 (existsb_exists (String.eqb "board_id") named_filters)
              (ex_intro _ "board_id" (conj H (String.eqb_refl _)))) as F.
discriminate F.
Qed.

(** X12. The query parameters of [get_cards]: each key once, and never a
    value that is [None].  Where the extra filters do not give the key
    themselves, a named filter is sent with its value exactly when that value
    is not [None] ([False], [0] and the empty string are sent), and
    [board_id] is sent exactly when it is truthy (not for [None], and not for
    the board [0]). *)
Theorem get_cards_sends_what_is_set (board_id : pyval) (arg : string -> pyval) (extra : pydict) :
  let p := params board_id arg extra in
  List.NoDup (map fst p)
  /\ (forall k v, In (k, v) p -> v <> PNone)
  /\ (forall k, In k named_filters -> dict_get k extra = None ->
        dict_get k p = if is_not_none (arg k) then Some (arg k) else None)
  /\ (dict_get "board_id" extra = None ->
        dict_get "board_id" p = if truthy board_id then Some board_id else None)
  /\ (forall k, ~ In k named_filters -> k <> "board_id" -> dict_get k extra = None ->
        dict_get k p = None).
Proof.
intros p. subst p.
destruct (fold_set_clean (fun kv => is_not_none (snd kv)) (all_params arg extra)
            (if truthy board_id then [("board_id", board_id)] else [])) as [Hn Hv].
{ destruct (truthy board_id); repeat constructor. intros []. }
{ destruct (truthy board_id) eqn:T; [|intros kv []].
  intros kv [<-|[]]. cbn. now destruct board_id. }
{ intros [k v] _. cbn. now destruct v. }
split; [exact Hn|]. split; [intros k v H; exact (Hv (k, v) H)|].
assert (Hb : forall k, k <> "board_id" ->
          dict_get k (if truthy board_id then [("board_id", board_id)] else []) = None).
{ intros k Hk. destruct (truthy board_id); [|reflexivity]. cbn [dict_get].
  destruct (String.eqb "board_id" k) eqn:E; [|reflexivity].
  apply String.eqb_eq in E. congruence. }
split; [|split].
- intros k Hin He. rewrite params_get, (all_params_get arg extra k He).
  rewrite bool_decide_eq_true_2 by exact Hin.
  destruct (is_not_none (arg k)); [reflexivity|]. apply Hb.
  intros ->. exact (board_id_not_named Hin).
- intros He. rewrite params_get, (all_params_get arg extra _ He).
  rewrite bool_decide_eq_false_2 by exact board_id_not_named.
  now destruct (truthy board_id).
- intros k Hin Hk He. rewrite params_get, (all_params_get arg extra k He).
  rewrite bool_decide_eq_false_2 by exact Hin. now apply Hb.
Qed.

(** [get_cards(board_id=0, archived=False, limit=5, tag=None)]: the board 0
    is dropped, [False] is sent as Python writes it. *)
Example get_cards_falsy_values :
  let args := args_of [("archived", PBool false); ("limit", PInt 5); ("tag", PNone)] in
  params (PInt 0) args [] = [("archived", PBool false); ("limit", PInt 5)]
  /\ KaitenClient.build_url "https://co.kaiten.ru/api/v1/cards"
       (KaitenClient.params (call_of (PInt 0) args []))
     = "https://co.kaiten.ru/api/v1/cards?archived=False&limit=5".
Proof. split; reflexivity. Qed.

(** An extra filter under the name [filter] takes the place of [filter_]. *)
Example get_cards_extra_filter :
  params PNone (args_of [("filter", PStr "a"); ("query", PStr "q")]) [("filter", PStr "b")]
  = [("query", PStr "q"); ("filter", PStr "b")].
Proof. reflexivity. Qed.

End GetCardsFacts.

(** ** [get_cards]: what the card data have to be *)

Module ListEndpoints.
Import KaitenClient.



Section Empty.

Variable float_of_str : string -> option Q.
Variable str_of_json : json -> string.
Variable cfg : settings.


End Empty.

(** A list with a number in it, and an envelope whose ["items"] is [None]. *)
Example get_cards_on_malformed_data :
  get_cards (Return (JList [JObject {[ "id" := JInt 1 ]}; JInt 2]))
  = Raise (mk_exn AttributeError "'int' object has no attribute 'get'" None)
  /\ get_cards (Return (JObject {[ "items" := JNull ]}))
     = Raise (mk_exn TypeError "'NoneType' object is not iterable" None)
  /\ get_cards (Return JNull)
     = Raise (mk_exn AttributeError "'NoneType' object has no attribute 'get'" None).
Proof. vm_compute. repeat split. Qed.

End ListEndpoints.

(** ** The header sets of constructed credentials *)

Module HeaderFacts.
Import PyStr PyStrFacts Headers.

(** X14. Credentials that [__init__] built send the same
    [Authorization] in both header sets, ["Bearer "] followed by the trimmed
    token; the set for uploads has no other header, in particular no
    [Content-Type] that would stand in the way of the multipart one. *)
Theorem headers_carry_the_trimmed_token (domain token : string) (c : KaitenCredentials.t) :
  KaitenCredentials.__init__ domain token = Return c ->
  header "Authorization" (get_headers c) = Some ("Bearer " +:+ strip token)
  /\ header "Authorization" (get_upload_headers c) = Some ("Bearer " +:+ strip token)
  /\ strip token <> EmptyString
  /\ strip (strip token) = strip token
  /\ map fst (get_upload_headers c) = ["Authorization"]
  /\ header "Content-Type" (get_upload_headers c) = None
  /\ header "Content-Type" (get_headers c) = Some "application/json"
  /\ header "Accept" (get_headers c) = Some "application/json".
Proof.
unfold KaitenCredentials.__init__.
destruct (falsy domain || falsy (strip domain)); [discriminate|].
destruct (falsy token || falsy (strip token)) eqn:Et; [discriminate|].
intros [= <-]. apply orb_false_iff in Et as [_ Et].
repeat split; try apply strip_idem.
intros E. now rewrite E in Et.
Qed.

Lemma headers_carry_the_trimmed_token_witness :
  header "Authorization" (get_upload_headers (KaitenCredentials.mk "co" "secret"))
  = Some "Bearer secret".
Proof.
exact (proj1 (proj2 (headers_carry_the_trimmed_token "co" " secret " _ eq_refl))).
Defined.

End HeaderFacts.
